(** * Static file resolution ([send]) : a shallow embedding and its properties

    The development embeds [src/index.js] (the [send] function of a koa
    static-file middleware, with its helpers [exists], [isHidden], [type]
    and [decode]) and proves properties of the resolution pipeline.

    Layout:
    - [Str]         : the string primitives of JavaScript the source uses;
    - [Posix]       : the functions of Node's [path] module the source
                      imports (POSIX flavour, [sep = "/"]);
    - [Uri]         : the builtin [decodeURIComponent];
    - [Http]        : errors, the file system capability, the koa context;
    - [ResolvePath] : the containment-safe join of the package resolve-path;
    - [Send]        : the embedding of [src/index.js] itself;
    - [Request], [Stages], [Traversal], [Demo], [Run], [Sites] : the
                      vocabulary of the statements and small sites for
                      examples;
    - then the facts about each layer and the properties of [send].

    Strings are byte strings: a JavaScript string is represented by its
    UTF-8 encoding, so that [String.length] agrees with the source on
    prefixes of the same string (which is all [substr] is used for). *)

From Stdlib Require Import ZArith Lia Bool List Ascii String.
From stdpp Require Import base option strings gmap pretty.

Local Open Scope string_scope.
Local Open Scope list_scope.

(* ===================================================================== *)
(** ** JavaScript string primitives                                       *)
(* ===================================================================== *)

Module Str.

(** [s.length === 0] *)
Definition is_empty (s : string) : bool :=
  match s with EmptyString => true | String _ _ => false end.

(** [s[0]] *)
Definition first (s : string) : option ascii :=
  match s with EmptyString => None | String c _ => Some c end.

(** [s[s.length - 1]] *)
Fixpoint last (s : string) : option ascii :=
  match s with
  | EmptyString => None
  | String c EmptyString => Some c
  | String _ r => last r
  end.

(** [s[0] === c] *)
Definition starts_with_char (c : ascii) (s : string) : bool :=
  match s with EmptyString => false | String d _ => Ascii.eqb d c end.

(** [s[s.length - 1] === c] *)
Definition ends_with_char (c : ascii) (s : string) : bool :=
  match last s with Some d => Ascii.eqb d c | None => false end.

(** [s.substr(n)] *)
Fixpoint substr (n : nat) (s : string) : string :=
  match n, s with
  | O, _ => s
  | S _, EmptyString => EmptyString
  | S m, String _ r => substr m r
  end.

(** [s.split(c)] for a one-character separator: never the empty list. *)
Fixpoint split (c : ascii) (s : string) : list string :=
  match s with
  | EmptyString => [EmptyString]
  | String d r =>
      if Ascii.eqb d c then EmptyString :: split c r
      else match split c r with
           | h :: t => String d h :: t
           | [] => [String d EmptyString]
           end
  end.

(** [l.join(c)] *)
Fixpoint join (c : ascii) (l : list string) : string :=
  match l with
  | [] => EmptyString
  | [s] => s
  | s :: r => s +:+ String c (join c r)
  end.

(** [s.indexOf(c) !== -1] *)
Fixpoint contains_char (c : ascii) (s : string) : bool :=
  match s with
  | EmptyString => false
  | String d r => Ascii.eqb d c || contains_char c r
  end.

(** Does [s] end with [suffix]? *)
Definition ends_with (suffix s : string) : bool :=
  String.prefix (String.rev suffix) (String.rev s).

(** [s.slice(0, s.length - n)] *)
Definition drop_end (n : nat) (s : string) : string :=
  String.rev (substr n (String.rev s)).

(** ASCII lower-casing, as Node applies to header names. *)
Definition lower_char (c : ascii) : ascii :=
  let n := nat_of_ascii c in
  if (65 <=? n)%nat && (n <=? 90)%nat then ascii_of_nat (n + 32) else c.

Fixpoint lower (s : string) : string :=
  match s with
  | EmptyString => EmptyString
  | String c r => String (lower_char c) (lower r)
  end.

End Str.

(* ===================================================================== *)
(** ** Node's [path] module, POSIX flavour

    [src/index.js] takes [normalize], [basename], [extname], [resolve],
    [parse] and [sep] from [require('path')].  These are functions of the
    platform; they are written here after Node's [path.posix]. *)
(* ===================================================================== *)

Module Posix.

Definition sep_char : ascii := "/"%char.
Definition sep : string := "/".

Definition isAbsolute (p : string) : bool := Str.starts_with_char sep_char p.

(** [parse(p).root] *)
Definition parse_root (p : string) : string :=
  if isAbsolute p then "/" else "".

(** One step of [normalizeString]: the stack holds the kept segments,
    most recent first. *)
Definition norm_step (allowAboveRoot : bool) (st : list string) (seg : string)
  : list string :=
  if String.eqb seg "" || String.eqb seg "." then st
  else if String.eqb seg ".." then
    match st with
    | top :: rest =>
        if String.eqb top ".." then (if allowAboveRoot then ".." :: st else st)
        else rest
    | [] => if allowAboveRoot then [".."] else []
    end
  else seg :: st.

Definition normalizeString (allowAboveRoot : bool) (p : string) : string :=
  Str.join sep_char
    (rev (fold_left (norm_step allowAboveRoot) (Str.split sep_char p) [])).

Definition normalize (p : string) : string :=
  if Str.is_empty p then "."
  else
    let abs := isAbsolute p in
    let trailing := Str.ends_with_char sep_char p in
    let q := normalizeString (negb abs) p in
    if Str.is_empty q then
      (if abs then "/" else if trailing then "./" else ".")
    else
      let q := if trailing then q +:+ "/" else q in
      if abs then "/" +:+ q else q.

(** [resolve(p)] with one argument, in a process whose working directory
    is [cwd] (an absolute path). *)
Definition resolve (cwd p : string) : string :=
  let full :=
    if Str.is_empty p then cwd
    else if isAbsolute p then p
    else cwd +:+ "/" +:+ p in
  "/" +:+ normalizeString false full.

(** [join(a, b)] *)
Definition join (a b : string) : string :=
  let joined :=
    if Str.is_empty a then b
    else if Str.is_empty b then a
    else a +:+ "/" +:+ b in
  if Str.is_empty joined then "." else normalize joined.

(** The last non-empty segment, [""] when there is none. *)
Fixpoint last_nonempty (l : list string) : string :=
  match l with
  | [] => ""
  | s :: r => let t := last_nonempty r in if Str.is_empty t then s else t
  end.

(** [basename(p)] *)
Definition basename (p : string) : string :=
  last_nonempty (Str.split sep_char p).

(** [basename(p, suffix)] *)
Definition basename_ext (p suffix : string) : string :=
  if negb (Str.is_empty suffix)
     && (String.length suffix <=? String.length p)%nat then
    if String.eqb suffix p then ""
    else
      let b := basename p in
      if Str.ends_with suffix b && negb (String.eqb suffix b)
      then Str.drop_end (String.length suffix) b
      else b
  else basename p.

(** Splits [b] at its last ["."]: what precedes the dot, and the rest
    from the dot on; [None] when [b] has no dot. *)
Fixpoint split_last_dot (b : string) : option (string * string) :=
  match b with
  | EmptyString => None
  | String c r =>
      match split_last_dot r with
      | Some (pre, ext) => Some (String c pre, ext)
      | None => if Ascii.eqb c "." then Some ("", b) else None
      end
  end.

(** [extname(p)] *)
Definition extname (p : string) : string :=
  let b := basename p in
  match split_last_dot b with
  | None => ""
  | Some (pre, ext) =>
      if Str.is_empty pre then ""
      else if String.eqb b ".." then ""
      else ext
  end.

End Posix.

(* ===================================================================== *)
(** ** The builtin [decodeURIComponent]

    A ["%"] must be followed by two hexadecimal digits; an escaped octet
    below 0x80 stands for itself; an escaped octet from 0x80 on must start
    a well-formed UTF-8 sequence all of whose octets are escaped.  Anything
    else raises [URIError], here [None]. *)
(* ===================================================================== *)

Module Uri.

Inductive token : Type :=
| Lit (c : ascii)
| Esc (b : N).

Definition hex_val (c : ascii) : option N :=
  let n := N_of_ascii c in
  if (48 <=? n)%N && (n <=? 57)%N then Some (n - 48)%N
  else if (65 <=? n)%N && (n <=? 70)%N then Some (n - 55)%N
  else if (97 <=? n)%N && (n <=? 102)%N then Some (n - 87)%N
  else None.

Fixpoint unescape (s : string) : option (list token) :=
  match s with
  | EmptyString => Some []
  | String c r =>
      if Ascii.eqb c "%" then
        match r with
        | String h1 (String h2 r') =>
            match hex_val h1, hex_val h2 with
            | Some a, Some b =>
                match unescape r' with
                | Some ts => Some (Esc (16 * a + b)%N :: ts)
                | None => None
                end
            | _, _ => None
            end
        | _ => None
        end
      else
        match unescape r with
        | Some ts => Some (Lit c :: ts)
        | None => None
        end
  end.

Definition between (lo hi b : N) : bool := ((lo <=? b) && (b <=? hi))%N.

(** For a leading octet: how many continuation octets follow, and the
    bounds of the first of them (the well-formed UTF-8 table). *)
Definition utf8_lead (b : N) : option (nat * N * N) :=
  if between 194 223 b then Some (1%nat, 128, 191)%N
  else if (b =? 224)%N then Some (2%nat, 160, 191)%N
  else if between 225 236 b then Some (2%nat, 128, 191)%N
  else if (b =? 237)%N then Some (2%nat, 128, 159)%N
  else if between 238 239 b then Some (2%nat, 128, 191)%N
  else if (b =? 240)%N then Some (3%nat, 144, 191)%N
  else if between 241 243 b then Some (3%nat, 128, 191)%N
  else if (b =? 244)%N then Some (3%nat, 128, 143)%N
  else None.

Definition cont (b : N) : bool := between 128 191 b.

Definition emit (bs : list N) (rest : option string) : option string :=
  match rest with
  | Some s => Some (fold_right (fun b acc => String (ascii_of_N b) acc) s bs)
  | None => None
  end.

Fixpoint assemble (ts : list token) : option string :=
  match ts with
  | [] => Some ""
  | Lit c :: r =>
      match assemble r with Some s => Some (String c s) | None => None end
  | Esc b :: r =>
      if (b <? 128)%N then emit [b] (assemble r)
      else
        match utf8_lead b with
        | None => None
        | Some (n, lo, hi) =>
            match n, r with
            | 1%nat, Esc b1 :: r1 =>
                if between lo hi b1 then emit [b; b1] (assemble r1) else None
            | 2%nat, Esc b1 :: Esc b2 :: r2 =>
                if between lo hi b1 && cont b2
                then emit [b; b1; b2] (assemble r2) else None
            | 3%nat, Esc b1 :: Esc b2 :: Esc b3 :: r3 =>
                if between lo hi b1 && cont b2 && cont b3
                then emit [b; b1; b2; b3] (assemble r3) else None
            | _, _ => None
            end
        end
  end.

Definition decodeURIComponent (s : string) : option string :=
  match unescape s with
  | Some ts => assemble ts
  | None => None
  end.

End Uri.

(* ===================================================================== *)
(** ** Errors, the file system and the koa context                        *)
(* ===================================================================== *)

Module Http.

(** A rejection of [fs.stat] or [fs.access]: Node's system error with its
    [code] (["ENOENT"], ["EACCES"], ...). *)
Record FsErr : Type := mkFsErr { err_code : string; err_message : string }.

(** What [send] can throw.  [SystemError cause status] is the error
    object [cause] of a file system call with its [status] property,
    absent until the [catch] block of [send] sets it. *)
Inductive Error : Type :=
| AssertionError (msg : string)
| TypeError (msg : string)
| HttpError (status : Z) (msg : string)
| SystemError (cause : FsErr) (status : option Z).

(** [err.code] *)
Definition code_of (e : Error) : option string :=
  match e with
  | SystemError c _ => Some (err_code c)
  | _ => None
  end.

(** [err.status] *)
Definition status_of (e : Error) : option Z :=
  match e with
  | HttpError st _ => Some st
  | SystemError _ st => st
  | _ => None
  end.

(** [err.status = st] *)
Definition set_status (st : Z) (e : Error) : Error :=
  match e with
  | SystemError c _ => SystemError c (Some st)
  | HttpError _ m => HttpError st m
  | other => other
  end.

(** [createError(st, err)] of http-errors, for an error object [err]: the
    same object, whose status becomes [err.status || st]. *)
Definition createError_from (st : Z) (e : Error) : Error :=
  match status_of e with
  | Some s => if (s =? 0)%Z then set_status st e else e
  | None => set_status st e
  end.

Record Stats : Type := mkStats {
  isDirectory : bool;
  size : Z;
  mtime : string          (* [stats.mtime.toUTCString()] *)
}.

(** The process and its file system: [process.cwd()], [fs.access]
    ([None] when it resolves) and [fs.stat]. *)
Record World : Type := mkWorld {
  cwd : string;
  access : string -> option FsErr;
  stat : string -> FsErr + Stats
}.

Inductive FsCall : Type :=
| Access (p : string)
| Stat (p : string).

(** The koa context at the interface [send] uses: content negotiation,
    the response headers (Node keeps them under lower-cased names), the
    content-type lookup behind [ctx.type = ...] and the body slot, which
    holds the path of the stream assigned to [ctx.body]. *)
Record Context : Type := mkContext {
  acceptsEncodings : list string -> option string;
  mime : string -> option string;
  headers : gmap string string;
  body : option string
}.

Definition with_headers (h : gmap string string) (c : Context) : Context :=
  {| acceptsEncodings := acceptsEncodings c; mime := mime c;
     headers := h; body := body c |}.

(** [ctx.response.get(field)]: the value, [""] when the header is absent. *)
Definition get (field : string) (c : Context) : string :=
  default "" (headers c !! Str.lower field).

(** [ctx.set(field, val)] *)
Definition set (field val : string) (c : Context) : Context :=
  with_headers (<[Str.lower field := val]> (headers c)) c.

(** [ctx.res.removeHeader(field)] *)
Definition removeHeader (field : string) (c : Context) : Context :=
  with_headers (delete (Str.lower field) (headers c)) c.

(** The getter [ctx.type]: the Content-Type up to its first [";"]. *)
Definition get_type (c : Context) : string :=
  match Str.split ";" (get "Content-Type" c) with
  | t :: _ => t
  | [] => ""
  end.

(** The setter [ctx.type = t]: sets Content-Type when the lookup knows
    [t], removes the header otherwise. *)
Definition set_type (t : string) (c : Context) : Context :=
  match mime c t with
  | Some ct => if Str.is_empty ct then removeHeader "Content-Type" c
               else set "Content-Type" ct c
  | None => removeHeader "Content-Type" c
  end.

(** [ctx.response.has(field)]: is the header present? *)
Definition has (field : string) (c : Context) : bool :=
  match headers c !! Str.lower field with
  | Some _ => true
  | None => false
  end.

(** The setter [ctx.body = stream] of koa, for a new stream on [path]:
    it keeps the stream, removes Content-Length when a body was assigned
    before (the stream overwrites it), and gives the response the type
    ["bin"] when no Content-Type is present.  (It also sets the status
    to 200 unless one was set explicitly; the status is not part of
    [Context].) *)
Definition set_body (path : string) (c : Context) : Context :=
  let setType := negb (has "Content-Type" c) in
  let c1 := match body c with
            | Some _ => removeHeader "Content-Length" c
            | None => c
            end in
  let c2 := if setType then set_type "bin" c1 else c1 in
  {| acceptsEncodings := acceptsEncodings c2; mime := mime c2;
     headers := headers c2; body := Some path |}.

End Http.

Export Http.

(* ===================================================================== *)
(** ** The containment-safe join [resolvePath] *)
(* ===================================================================== *)

Module ResolvePath.

Definition is_slash (c : ascii) : bool :=
  Ascii.eqb c "/" || Ascii.eqb c "\".

Definition is_letter (c : ascii) : bool :=
  let n := nat_of_ascii c in
  ((65 <=? n) && (n <=? 90) || (97 <=? n) && (n <=? 122))%nat.

(** [pathIsAbsolute.win32] *)
Definition win32_isAbsolute (p : string) : bool :=
  match p with
  | String c r =>
      is_slash c
      || match r with
         | String ":" (String d _) => is_letter c && is_slash d
         | _ => false
         end
  | EmptyString => false
  end.

(** Does [s] start with [".."] followed by a slash or by the end? *)
Definition up_here (s : string) : bool :=
  match s with
  | String "." (String "." EmptyString) => true
  | String "." (String "." (String c _)) => is_slash c
  | _ => false
  end.

(** [UP_PATH_REGEXP.test(s)], the expression being
    [/(?:^|[\\/])\.\.(?:[\\/]|$)/]; [boundary] tells whether the
    position is the start or follows a slash. *)
Fixpoint up_scan (boundary : bool) (s : string) : bool :=
  match s with
  | EmptyString => false
  | String c r => (boundary && up_here s) || up_scan (is_slash c) r
  end.

Definition up_path (s : string) : bool := up_scan true s.

(** Modelled from the spec: [resolvePath] is imported from the package
    resolve-path, which is not part of the source.  The join must never
    yield a location outside the root, neither through [".."] nor through
    an absolute path, and fails when it would.  As that package does it: a
    path with a NUL byte or an absolute path is refused with 400, a path
    whose normal form keeps a [".."] segment is refused with 403, and the
    rest is joined onto the resolved root and normalized. *)
Definition resolvePath (cwd root path : string) : Error + string :=
  if Str.contains_char "000" path then inl (HttpError 400 "Malicious Path")
  else if Posix.isAbsolute path || win32_isAbsolute path
  then inl (HttpError 400 "Malicious Path")
  else if up_path (Posix.normalize ("." +:+ Posix.sep +:+ path))
  then inl (HttpError 403 "Forbidden")
  else inr (Posix.normalize (Posix.join (Posix.resolve cwd root) path)).

End ResolvePath.

(* ===================================================================== *)
(** ** The embedding of [src/index.js]                                    *)
(* ===================================================================== *)

Module Send.

(** *** Option values

    The options object is dynamically typed.  Fields the source only
    tests for truthiness or compares with [false] are [option]s of their
    documented type ([None]: the key is absent).  The entries of
    [extensions] and a [setHeaders] that is not a function are arbitrary
    JavaScript values. *)

Inductive JsValue : Type :=
| JsUndefined
| JsNull
| JsBool (b : bool)
| JsNumber (n : Z)
| JsString (s : string)
| JsObject.

Definition truthy (v : JsValue) : bool :=
  match v with
  | JsUndefined | JsNull => false
  | JsBool b => b
  | JsNumber n => negb (n =? 0)%Z
  | JsString s => negb (Str.is_empty s)
  | JsObject => true
  end.

(** The hook [setHeaders(res, path, stats)]: what it does to the headers
    of the response. *)
Definition Hook : Type := gmap string string -> string -> Stats -> gmap string string.

Inductive SetHeaders : Type :=
| HookFunction (f : Hook)
| HookValue (v : JsValue).      (* anything that is not a function *)

Record Options : Type := mkOptions {
  opt_root : option string;
  opt_index : option string;
  opt_maxage : option Z;          (* an integer number of milliseconds *)
  opt_maxAge : option Z;
  opt_immutable : option bool;
  opt_hidden : option bool;
  opt_format : option bool;
  opt_extensions : option (list JsValue);   (* [None]: not an array *)
  opt_brotli : option bool;
  opt_gzip : option bool;
  opt_setHeaders : SetHeaders
}.

(** [opts = {}] *)
Definition no_options : Options :=
  {| opt_root := None; opt_index := None; opt_maxage := None;
     opt_maxAge := None; opt_immutable := None; opt_hidden := None;
     opt_format := None; opt_extensions := None; opt_brotli := None;
     opt_gzip := None; opt_setHeaders := HookValue JsUndefined |}.

(** Truthiness of an optional string, number, boolean. *)
Definition truthy_str (o : option string) : bool :=
  match o with Some s => negb (Str.is_empty s) | None => false end.

Definition truthy_num (o : option Z) : bool :=
  match o with Some n => negb (n =? 0)%Z | None => false end.

(** [o || false] *)
Definition or_false (o : option bool) : bool :=
  match o with Some b => b | None => false end.

(** [o !== false] *)
Definition not_false (o : option bool) : bool :=
  match o with Some b => b | None => true end.

(** The value of an optional string once it is known to be truthy. *)
Definition str_of (o : option string) : string := default "" o.

(** *** The computation type

    [send] reads and writes the context, calls the file system, throws,
    and returns early.  A computation takes the state (the context and
    the file system calls made so far, oldest first) to a completion and
    a state. *)

Record State : Type := mkState { ctx : Context; trace : list FsCall }.

Inductive Completion (A : Type) : Type :=
| Normal (a : A)
| Returned                    (* [return] without a value *)
| Threw (e : Error).
Arguments Normal {A} a.
Arguments Returned {A}.
Arguments Threw {A} e.

Definition M (A : Type) : Type := State -> Completion A * State.

Definition ret {A} (a : A) : M A := fun s => (Normal a, s).

Definition bind {A B} (m : M A) (k : A -> M B) : M B :=
  fun s =>
    match m s with
    | (Normal a, s') => k a s'
    | (Returned, s') => (Returned, s')
    | (Threw e, s') => (Threw e, s')
    end.

Notation "x <- m ;; k" := (bind m (fun x => k))
  (at level 100, m at next level, right associativity).
Notation "m ;; k" := (bind m (fun _ => k))
  (at level 100, right associativity).

Definition throw {A} (e : Error) : M A := fun s => (Threw e, s).

Definition return_undefined {A} : M A := fun s => (Returned, s).

(** [try { m } catch (err) { h err }] *)
Definition try_catch {A} (m : M A) (h : Error -> M A) : M A :=
  fun s =>
    match m s with
    | (Threw e, s') => h e s'
    | r => r
    end.

Definition lift {A} (r : Error + A) : M A :=
  match r with inl e => throw e | inr a => ret a end.

Definition read {A} (f : Context -> A) : M A := fun s => (Normal (f (ctx s)), s).

Definition update (f : Context -> Context) : M unit :=
  fun s => (Normal tt, {| ctx := f (ctx s); trace := trace s |}).

Definition log (c : FsCall) : M unit :=
  fun s => (Normal tt, {| ctx := ctx s; trace := trace s ++ [c] |}).

(** [await stat(path)] *)
Definition stat_ (w : World) (path : string) : M Stats :=
  log (Stat path) ;;
  match stat w path with
  | inl e => throw (SystemError e None)
  | inr st => ret st
  end.

(** *** [exists], lines 19-26 *)
Definition exists_ (w : World) (path : string) : M bool :=
  log (Access path) ;;
  match access w path with
  | None => ret true
  | Some _ => ret false
  end.

(** *** [isHidden], lines 194-202 *)
Definition isHidden (root path : string) : bool :=
  existsb (fun seg => Str.starts_with_char "." seg)
          (Str.split Posix.sep_char (Str.substr (String.length root) path)).

(** *** [type], lines 209-211 *)
Definition type (file ext : string) : string :=
  if negb (String.eqb ext "") then Posix.extname (Posix.basename_ext file ext)
  else Posix.extname file.

(** *** [decode], lines 218-224: [None] stands for [-1]. *)
Definition decode (path : string) : option string :=
  Uri.decodeURIComponent path.

(** *** The options as [send] reads them, lines 67-88 *)

Definition root_of (w : World) (opts : Options) : string :=
  if truthy_str (opt_root opts)
  then Posix.normalize (Posix.resolve (cwd w) (str_of (opt_root opts)))
  else "".

(** [opts.maxage || opts.maxAge || 0] *)
Definition maxage_of (opts : Options) : Z :=
  if truthy_num (opt_maxage opts) then default 0%Z (opt_maxage opts)
  else if truthy_num (opt_maxAge opts) then default 0%Z (opt_maxAge opts)
  else 0%Z.

(** [x | 0] on an integer: reduction to a signed 32-bit integer. *)
Definition to_int32 (x : Z) : Z :=
  ((x + 2147483648) mod 4294967296 - 2147483648)%Z.

(** [maxage / 1000 | 0]: the quotient is truncated toward zero, then
    reduced to 32 bits.  (The division is exact on the integers a
    number represents exactly, those below 2^53 in absolute value.) *)
Definition max_age_seconds (maxage : Z) : Z :=
  to_int32 (Z.quot maxage 1000).

(** [`${n}`] for an integer [n] *)
Definition number_to_string (n : Z) : string := pretty n.

(** *** Precompressed variants, lines 113-125: the path to serve and
    [encodingExt]. *)
Definition negotiate (w : World) (brotli gzip : bool) (path : string)
  : M (string * string) :=
  br <- read (fun c => acceptsEncodings c ["br"; "identity"]) ;;
  found <- (if bool_decide (br = Some "br") && brotli
            then exists_ w (path +:+ ".br") else ret false) ;;
  if (found : bool) then
    update (set "Content-Encoding" "br") ;;
    update (removeHeader "Content-Length") ;;
    ret (path +:+ ".br", ".br")
  else
    gz <- read (fun c => acceptsEncodings c ["gzip"; "identity"]) ;;
    found <- (if bool_decide (gz = Some "gzip") && gzip
              then exists_ w (path +:+ ".gz") else ret false) ;;
    if (found : bool) then
      update (set "Content-Encoding" "gzip") ;;
      update (removeHeader "Content-Length") ;;
      ret (path +:+ ".gz", ".gz")
    else ret (path, "").

(** *** Extension fallback, lines 127-141 *)

(** [if (!/^\./.exec(ext)) ext = `.${ext}`] *)
Definition with_dot (ext : string) : string :=
  if Str.starts_with_char "." ext then ext else "." +:+ ext.

(** The loop over [list], from its current entry on. *)
Fixpoint probe (w : World) (path : string) (list : list JsValue) : M string :=
  match list with
  | [] => ret path
  | JsString ext :: rest =>
      let ext := with_dot ext in
      found <- exists_ w (path +:+ ext) ;;
      if (found : bool) then ret (path +:+ ext) else probe w path rest
  | _ :: _ =>
      throw (TypeError "option extensions must be array of strings or false")
  end.

Definition extension_fallback (w : World) (extensions : option (list JsValue))
    (path : string) : M string :=
  match extensions with
  | Some list =>
      if negb (Str.contains_char "." (Posix.basename path))
      then probe w path list
      else ret path
  | None => ret path
  end.

(** *** Stat and directory index, lines 143-167 *)

Definition notfound : list string := ["ENOENT"; "ENAMETOOLONG"; "ENOTDIR"].

(** [notfound.includes(err.code)] *)
Definition is_notfound (e : Error) : bool :=
  match code_of e with
  | Some c => existsb (String.eqb c) notfound
  | None => false
  end.

(** The [catch] block. *)
Definition on_stat_error {A} (err : Error) : M A :=
  if is_notfound err then throw (createError_from 404 err)
  else throw (set_status 500 err).

Definition stat_stage (w : World) (format : bool) (index : option string)
    (path : string) : M (string * Stats) :=
  try_catch
    (stats <- stat_ w path ;;
     if isDirectory stats then
       if format && truthy_str index then
         let path := path +:+ "/" +:+ str_of index in
         stats <- stat_ w path ;;
         ret (path, stats)
       else return_undefined
     else ret (path, stats))
    on_stat_error.

(** *** Response headers and body, lines 169-186 *)

Definition call_hook (setHeaders : SetHeaders) (path : string) (stats : Stats)
  : M unit :=
  match setHeaders with
  | HookFunction f => update (fun c => with_headers (f (headers c) path stats) c)
  | HookValue _ => ret tt
  end.

Definition cache_control (maxage : Z) (immutable : bool) : string :=
  let directives := ["max-age=" +:+ number_to_string (max_age_seconds maxage)] in
  let directives := if immutable then directives ++ ["immutable"] else directives in
  Str.join "," directives.

Definition respond (setHeaders : SetHeaders) (maxage : Z) (immutable : bool)
    (encodingExt path : string) (stats : Stats) : M string :=
  call_hook setHeaders path stats ;;
  update (set "Content-Length" (number_to_string (size stats))) ;;
  lm <- read (get "Last-Modified") ;;
  (if Str.is_empty lm then update (set "Last-Modified" (mtime stats)) else ret tt) ;;
  cc <- read (get "Cache-Control") ;;
  (if Str.is_empty cc
   then update (set "Cache-Control" (cache_control maxage immutable))
   else ret tt) ;;
  ty <- read get_type ;;
  (if Str.is_empty ty then update (set_type (type path encodingExt)) else ret tt) ;;
  update (set_body path) ;;
  ret path.

(** [setHeaders && typeof setHeaders !== 'function'] *)
Definition bad_setHeaders (sh : SetHeaders) : bool :=
  match sh with
  | HookFunction _ => false
  | HookValue v => truthy v
  end.

(** *** [send], lines 60-187

    [serve] is the part of the body that follows the hidden-file check
    (lines 113-186); it reads the same option values as the part before
    it.  The context is a [Context], so [assert(ctx, ...)] holds; the call
    to [debug] has no effect on the request. *)

Definition serve (w : World) (opts : Options) (path : string) : M string :=
  let index := opt_index opts in
  let maxage := maxage_of opts in
  let immutable := or_false (opt_immutable opts) in
  let format := not_false (opt_format opts) in
  let extensions := opt_extensions opts in
  let brotli := not_false (opt_brotli opts) in
  let gzip := not_false (opt_gzip opts) in
  let setHeaders := opt_setHeaders opts in
  chosen <- negotiate w brotli gzip path ;;
  let '(path, encodingExt) := chosen in
  path <- extension_fallback w extensions path ;;
  found <- stat_stage w format index path ;;
  let '(path, stats) := found in
  respond setHeaders maxage immutable encodingExt path stats.

Definition send (w : World) (path : string) (opts : Options) : M string :=
  if Str.is_empty path then throw (AssertionError "pathname required") else
  let root := root_of w opts in
  let trailingSlash := Str.ends_with_char "/" path in
  let path := Str.substr (String.length (Posix.parse_root path)) path in
  let index := opt_index opts in
  let hidden := or_false (opt_hidden opts) in
  let setHeaders := opt_setHeaders opts in
  if bad_setHeaders setHeaders
  then throw (TypeError "option setHeaders must be function") else
  match decode path with
  | None => throw (HttpError 400 "failed to decode")
  | Some path =>
      let path := if truthy_str index && trailingSlash
                  then path +:+ str_of index else path in
      path <- lift (ResolvePath.resolvePath (cwd w) root path) ;;
      if negb hidden && isHidden root path then return_undefined
      else serve w opts path
  end.

(** *** The outcome of a request *)

Inductive Outcome : Type :=
| Resolved (finalPath : string)
| NotApplicable
| Failed (e : Error).

Definition outcome_of (c : Completion string) : Outcome :=
  match c with
  | Normal p => Resolved p
  | Returned => NotApplicable
  | Threw e => Failed e
  end.

(** Runs a computation on a context, no file system call made yet: the
    outcome, the context as it is left, and the file system calls made,
    in order. *)
Definition complete (m : M string) (c : Context)
  : Outcome * Context * list FsCall :=
  let '(r, s) := m {| ctx := c; trace := [] |} in
  (outcome_of r, ctx s, trace s).

(** One call [send(ctx, path, opts)]. *)
Definition resolve (w : World) (c : Context) (path : string) (opts : Options)
  : Outcome * Context * list FsCall :=
  complete (send w path opts) c.

End Send.

Import Send.

(* ===================================================================== *)
(** ** The request up to the join *)
(* ===================================================================== *)

Module Request.

(** The request path without its root marker (line 71). *)
Definition stripped (path : string) : string :=
  Str.substr (String.length (Posix.parse_root path)) path.

(** The relative path [send] hands to the join step (line 107): the
    decoded path, with the index appended after a trailing slash.  [None]
    when [send] stops before the join. *)
Definition join_argument (path : string) (opts : Options) : option string :=
  if Str.is_empty path then None
  else if bad_setHeaders (opt_setHeaders opts) then None
  else match decode (stripped path) with
       | None => None
       | Some d =>
           Some (if truthy_str (opt_index opts) && Str.ends_with_char "/" path
                 then d +:+ str_of (opt_index opts) else d)
       end.

(** The candidate path: what the join step returns. *)
Definition candidate (w : World) (path : string) (opts : Options) : option string :=
  match join_argument path opts with
  | Some j =>
      match ResolvePath.resolvePath (cwd w) (root_of w opts) j with
      | inr rp => Some rp
      | inl _ => None
      end
  | None => None
  end.

End Request.

Import Request.

(* ===================================================================== *)
(** ** States and contexts the stages produce *)
(* ===================================================================== *)

Module Stages.

Definition is_access (c : FsCall) : Prop := exists p, c = Access p.

Definition push (c : FsCall) (s : State) : State :=
  {| ctx := ctx s; trace := trace s ++ [c] |}.

Definition on_ctx (f : Context -> Context) (s : State) : State :=
  {| ctx := f (ctx s); trace := trace s |}.

(** The state after a successful brotli or gzip match. *)
Definition encoded (enc suffix : string) (path : string) (s : State) : State :=
  on_ctx (fun c => removeHeader "Content-Length" (set "Content-Encoding" enc c))
         (push (Access (path +:+ suffix)) s).

(** What the [catch] block makes of a rejection of [stat]. *)
Definition classified (e : FsErr) : Error :=
  SystemError e (Some (if existsb (String.eqb (err_code e)) notfound
                       then 404 else 500)%Z).

(** The context once the hook has run. *)
Definition hooked (sh : SetHeaders) (path : string) (stats : Stats)
    (c : Context) : Context :=
  match sh with
  | HookFunction f => with_headers (f (headers c) path stats) c
  | HookValue _ => c
  end.

Definition default_header (field val : string) (c : Context) : Context :=
  if Str.is_empty (get field c) then set field val c else c.

Definition default_type (t : string) (c : Context) : Context :=
  if Str.is_empty (get_type c) then set_type t c else c.

(** The context once [respond] is done with it. *)
Definition responded (sh : SetHeaders) (maxage : Z) (immutable : bool)
    (ext path : string) (stats : Stats) (c : Context) : Context :=
  set_body path
    (default_type (type path ext)
      (default_header "Cache-Control" (cache_control maxage immutable)
        (default_header "Last-Modified" (mtime stats)
          (set "Content-Length" (number_to_string (size stats))
            (hooked sh path stats c))))).

End Stages.

Import Stages.

(* ===================================================================== *)
(** ** The vocabulary of the properties *)
(* ===================================================================== *)

Module Traversal.

(** Walking the segments of a relative path from the root at depth 0:
    [".."] goes up one level, [""] and ["."] stay, any other segment
    goes down.  The path climbs out when [".."] is met at depth 0. *)
Fixpoint climbs (depth : nat) (segs : list string) : bool :=
  match segs with
  | [] => false
  | seg :: rest =>
      if String.eqb seg "" || String.eqb seg "." then climbs depth rest
      else if String.eqb seg ".." then
        match depth with
        | O => true
        | S d => climbs d rest
        end
      else climbs (S depth) rest
  end.

Definition escapes_root (p : string) : bool :=
  climbs 0 (Str.split Posix.sep_char p).

End Traversal.

(** The codes the [catch] block of [send] takes for "not found". *)
Definition not_found_code (code : string) : Prop :=
  code = "ENOENT" \/ code = "ENAMETOOLONG" \/ code = "ENOTDIR".

(** A path has a hidden segment relative to [root] when, cut after the
    length of [root] and split at the separator, one of its segments
    starts with a dot. *)
Definition hidden_segment (root path : string) : Prop :=
  exists seg,
    In seg (Str.split Posix.sep_char (Str.substr (String.length root) path))
    /\ Str.first seg = Some "."%char.

Definition extensions_error : Error :=
  TypeError "option extensions must be array of strings or false".

(** The hook, if there is one, leaves the Cache-Control header as it
    finds it. *)
Definition keeps_cache_control (sh : SetHeaders) : Prop :=
  match sh with
  | HookFunction f =>
      forall h p st, f h p st !! "cache-control" = h !! "cache-control"
  | HookValue _ => True
  end.

(* ===================================================================== *)
(** ** A small site, for examples *)
(* ===================================================================== *)

Module Demo.

Definition file : Stats :=
  {| isDirectory := false; size := 42; mtime := "Thu, 01 Jan 2026 00:00:00 GMT" |}.

Definition directory : Stats :=
  {| isDirectory := true; size := 4096; mtime := "Thu, 01 Jan 2026 00:00:00 GMT" |}.

Definition files : list string :=
  ["/srv/www/app.js"; "/srv/www/app.js.br"; "/srv/www/app.js.gz";
   "/srv/www/page.htm"; "/srv/www/.env"; "/srv/www/a b"; "/srv/www/100%"].

Definition is_in (p : string) (l : list string) : bool := existsb (String.eqb p) l.

Definition enoent : FsErr := {| err_code := "ENOENT"; err_message := "no such file or directory" |}.
Definition eacces : FsErr := {| err_code := "EACCES"; err_message := "permission denied" |}.

(** A process started in [/srv]; [/srv/www/docs] is a directory and
    [/srv/www/locked] cannot be examined. *)
Definition world : World :=
  {| cwd := "/srv";
     access := fun p => if is_in p files then None else Some enoent;
     stat := fun p =>
       if is_in p files then inr file
       else if String.eqb p "/srv/www/docs" then inr directory
       else if String.eqb p "/srv/www/locked" then inl eacces
       else inl enoent |}.

Definition mime_table (ext : string) : option string :=
  if String.eqb ext ".js" then Some "application/javascript; charset=utf-8"
  else if String.eqb ext ".htm" then Some "text/html; charset=utf-8"
  else if String.eqb ext "bin" then Some "application/octet-stream"
  else None.

(** A client that accepts any encoding offered first. *)
Definition eager : Context :=
  {| acceptsEncodings := fun l => hd_error l; mime := mime_table;
     headers := ∅; body := None |}.

(** A client that accepts no content coding. *)
Definition plain : Context :=
  {| acceptsEncodings := fun _ => Some "identity"; mime := mime_table;
     headers := ∅; body := None |}.

Definition site : Options :=
  {| opt_root := Some "www"; opt_index := None; opt_maxage := None;
     opt_maxAge := None; opt_immutable := None; opt_hidden := None;
     opt_format := None; opt_extensions := None; opt_brotli := None;
     opt_gzip := None; opt_setHeaders := HookValue JsUndefined |}.

Definition with_maxage (a b : option Z) (o : Options) : Options :=
  {| opt_root := opt_root o; opt_index := opt_index o; opt_maxage := a;
     opt_maxAge := b; opt_immutable := opt_immutable o;
     opt_hidden := opt_hidden o; opt_format := opt_format o;
     opt_extensions := opt_extensions o; opt_brotli := opt_brotli o;
     opt_gzip := opt_gzip o; opt_setHeaders := opt_setHeaders o |}.

Definition with_extensions (l : list JsValue) (o : Options) : Options :=
  {| opt_root := opt_root o; opt_index := opt_index o; opt_maxage := opt_maxage o;
     opt_maxAge := opt_maxAge o; opt_immutable := opt_immutable o;
     opt_hidden := opt_hidden o; opt_format := opt_format o;
     opt_extensions := Some l; opt_brotli := opt_brotli o;
     opt_gzip := opt_gzip o; opt_setHeaders := opt_setHeaders o |}.

Definition with_hidden (b : bool) (o : Options) : Options :=
  {| opt_root := opt_root o; opt_index := opt_index o; opt_maxage := opt_maxage o;
     opt_maxAge := opt_maxAge o; opt_immutable := opt_immutable o;
     opt_hidden := Some b; opt_format := opt_format o;
     opt_extensions := opt_extensions o; opt_brotli := opt_brotli o;
     opt_gzip := opt_gzip o; opt_setHeaders := opt_setHeaders o |}.

Definition with_hook (sh : SetHeaders) (o : Options) : Options :=
  {| opt_root := opt_root o; opt_index := opt_index o; opt_maxage := opt_maxage o;
     opt_maxAge := opt_maxAge o; opt_immutable := opt_immutable o;
     opt_hidden := opt_hidden o; opt_format := opt_format o;
     opt_extensions := opt_extensions o; opt_brotli := opt_brotli o;
     opt_gzip := opt_gzip o; opt_setHeaders := sh |}.

(** A response on which Cache-Control is already set to [v]. *)
Definition preset (v : string) : Context := set "Cache-Control" v plain.

(** A hook that sets its own Cache-Control. *)
Definition no_store_hook : SetHeaders :=
  HookFunction (fun h _ _ => <["cache-control" := "no-store"]> h).

End Demo.

(* ===================================================================== *)
(** ** The run of a request *)
(* ===================================================================== *)

(** Vocabulary for statements about a whole run of [send]: the calls it
    makes, the context it leaves. *)
Module Run.

(** The path a file system call is made on. *)
Definition call_path (c : FsCall) : string :=
  match c with Access p | Stat p => p end.

(** The call is a stat. *)
Definition is_stat (c : FsCall) : Prop := exists p, c = Stat p.

(** The context after a precompressed sibling was chosen (lines 117-118,
    122-123). *)
Definition encoded_ctx (enc : string) (c : Context) : Context :=
  removeHeader "Content-Length" (set "Content-Encoding" enc c).

(** The hook, if there is one, leaves the header [field] (a lower-cased
    name) as it finds it. *)
Definition hook_keeps (field : string) (sh : SetHeaders) : Prop :=
  match sh with
  | HookFunction f => forall h p st, f h p st !! field = h !! field
  | HookValue _ => True
  end.

(** The headers [send] writes, under the names Node keeps them. *)
Definition governed : list string :=
  ["content-encoding"; "content-length"; "last-modified"; "cache-control";
   "content-type"].

(** The number of existence checks the options allow: one per enabled
    encoding and one per entry of [extensions]. *)
Definition probe_budget (opts : Options) : nat :=
  (if not_false (opt_brotli opts) then 1 else 0)
  + (if not_false (opt_gzip opts) then 1 else 0)
  + length (default [] (opt_extensions opts)).

(** What follows the extension fallback (lines 143-186), as a function of
    its completion [r], of [encodingExt] and of the state it left. *)
Definition finish (w : World) (opts : Options) (ext : string)
    (r : Completion string) (s : State) : Completion string * State :=
  match r with
  | Normal p =>
      match stat w p with
      | inl e => (Threw (classified e), push (Stat p) s)
      | inr st =>
          if isDirectory st then
            if not_false (opt_format opts) && truthy_str (opt_index opts) then
              let p' := p +:+ "/" +:+ str_of (opt_index opts) in
              match stat w p' with
              | inl e => (Threw (classified e), push (Stat p') (push (Stat p) s))
              | inr st' =>
                  (Normal p',
                   on_ctx (responded (opt_setHeaders opts) (maxage_of opts)
                             (or_false (opt_immutable opts)) ext p' st')
                          (push (Stat p') (push (Stat p) s)))
              end
            else (Returned, push (Stat p) s)
          else
            (Normal p,
             on_ctx (responded (opt_setHeaders opts) (maxage_of opts)
                       (or_false (opt_immutable opts)) ext p st)
                    (push (Stat p) s))
      end
  | Returned => (Returned, s)
  | Threw e => (Threw e, s)
  end.

(** The context negotiation leaves: the original one, or the one with
    Content-Encoding set and Content-Length removed because a sibling of
    the candidate exists. *)
Definition negotiated (w : World) (path : string) (opts : Options)
    (c c1 : Context) (ext : string) : Prop :=
  (c1 = c /\ ext = "")
  \/ (c1 = encoded_ctx "br" c /\ ext = ".br"
      /\ exists rp, candidate w path opts = Some rp
                    /\ access w (rp +:+ ".br") = None)
  \/ (c1 = encoded_ctx "gzip" c /\ ext = ".gz"
      /\ exists rp, candidate w path opts = Some rp
                    /\ access w (rp +:+ ".gz") = None).

(** [encodingExt] once negotiation is over (lines 113-125), for the
    candidate [path]: the suffix of the sibling chosen, [""] when none
    is. *)
Definition encoding_ext (w : World) (opts : Options) (c : Context)
    (path : string) : string :=
  if bool_decide (acceptsEncodings c ["br"; "identity"] = Some "br")
     && not_false (opt_brotli opts)
     && bool_decide (access w (path +:+ ".br") = None)
  then ".br"
  else if bool_decide (acceptsEncodings c ["gzip"; "identity"] = Some "gzip")
          && not_false (opt_gzip opts)
          && bool_decide (access w (path +:+ ".gz") = None)
  then ".gz"
  else "".

(** The Content-Type the setter [ctx.type = t] leaves: the answer of the
    lookup, no header when it knows nothing. *)
Definition looked_up (c : Context) (t : string) : option string :=
  match mime c t with
  | Some ct => if Str.is_empty ct then None else Some ct
  | None => None
  end.

(** The tokens of a string without escape sequences. *)
Fixpoint lits (s : string) : list Uri.token :=
  match s with
  | EmptyString => []
  | String c r => Uri.Lit c :: lits r
  end.

End Run.
Import Run.

(** More sites and options for the examples. *)
Module Sites.

(** A site where every sibling seems to exist and none can be stat-ed. *)
Definition mirage : World :=
  {| cwd := "/srv"; access := fun _ => None; stat := fun _ => inl Demo.enoent |}.


(** A response whose body was assigned before the request is resolved. *)
Definition busy : Context :=
  {| acceptsEncodings := fun _ => Some "identity"; mime := Demo.mime_table;
     headers := ∅; body := Some "/srv/www/old" |}.

(** The demo site without brotli. *)
Definition no_brotli : Options :=
  {| opt_root := Some "www"; opt_index := None; opt_maxage := None;
     opt_maxAge := None; opt_immutable := None; opt_hidden := None;
     opt_format := None; opt_extensions := None; opt_brotli := Some false;
     opt_gzip := None; opt_setHeaders := HookValue JsUndefined |}.

(** The demo site serving [index.html] for directories. *)
Definition with_index : Options :=
  {| opt_root := Some "www"; opt_index := Some "index.html"; opt_maxage := None;
     opt_maxAge := None; opt_immutable := None; opt_hidden := None;
     opt_format := None; opt_extensions := None; opt_brotli := None;
     opt_gzip := None; opt_setHeaders := HookValue JsUndefined |}.

End Sites.

Import Sites.

(* ===================================================================== *)
(** ** Facts about paths *)
(* ===================================================================== *)

Module TraversalFacts.

Import Traversal.

Lemma all_up_rev (ups : list string) :
  Forall (fun s => s = "..") ups -> ups <> [] ->
  exists rest, rev ups = ".." :: rest.
Proof.
  intros Hall Hne.
  destruct (rev ups) as [|x rest] eqn:E.
  - apply (f_equal (@rev string)) in E. rewrite rev_involutive in E.
    simpl in E. contradiction.
  - exists rest. f_equal.
    assert (Hin : In x ups) by (apply in_rev; rewrite E; left; reflexivity).
    rewrite List.Forall_forall in Hall. exact (Hall x Hin).
Qed.

Lemma fold_norm_ups (l : list string) :
  forall normals ups,
    Forall (fun s => s <> "..") normals ->
    Forall (fun s => s = "..") ups ->
    ups <> [] \/ climbs (length normals) l = true ->
    exists normals' ups',
      fold_left (Posix.norm_step true) l (normals ++ ups) = normals' ++ ups'
      /\ Forall (fun s => s <> "..") normals'
      /\ Forall (fun s => s = "..") ups'
      /\ ups' <> [].
Proof.
  induction l as [|seg l IH]; intros normals ups Hn Hu Hc.
  - destruct Hc as [Hc|Hc]; [|discriminate].
    exists normals, ups. auto.
  - cbn [fold_left]. cbn [climbs] in Hc. unfold Posix.norm_step at 2.
    destruct (String.eqb seg "" || String.eqb seg ".") eqn:Eskip.
    + apply IH; assumption.
    + destruct (String.eqb_spec seg "..") as [->|Hseg].
      * destruct normals as [|n ns].
        -- cbn [app]. destruct ups as [|u us].
           ++ apply (IH [] [".."]); [constructor | auto | left; discriminate].
           ++ assert (u = "..") as -> by (inversion Hu; assumption).
              cbn. apply (IH [] (".." :: ".." :: us));
                [constructor | auto | left; discriminate].
        -- cbn [app]. inversion Hn as [|? ? Hn1 Hn2]; subst.
           destruct (String.eqb_spec n "..") as [->|_]; [contradiction|].
           apply IH; [assumption | assumption |].
           destruct Hc as [Hc|Hc]; [left|right]; assumption.
      * apply (IH (seg :: normals) ups); [constructor; assumption | assumption |].
        destruct Hc as [Hc|Hc]; [left|right]; assumption.
  Qed.

Lemma join_up_first (rest : list string) :
  exists t, Str.join Posix.sep_char (".." :: rest) = ".." +:+ t
            /\ (t = "" \/ exists t', t = String "/" t').
Proof.
  destruct rest as [|x r].
  - exists "". split; [reflexivity | left; reflexivity].
  - exists (String "/" (Str.join Posix.sep_char (x :: r))).
    split; [reflexivity | right; eauto].
Qed.

(** A relative path that climbs out normalizes to a path that starts
    with a [".."] segment, which the join refuses. *)
Lemma escapes_up_path (p : string) :
  escapes_root p = true ->
  ResolvePath.up_path (Posix.normalize ("." +:+ Posix.sep +:+ p)) = true.
Proof.
  unfold escapes_root. intros Hc.
  destruct (fold_norm_ups (Str.split Posix.sep_char p) [] [] ) as
    (normals & ups & Hfold & Hn & Hu & Hne); auto.
  destruct (all_up_rev ups Hu Hne) as [rest Hrev].
  unfold Posix.normalize.
  change (Str.is_empty ("." +:+ Posix.sep +:+ p)) with false. cbv iota.
  change (Posix.isAbsolute ("." +:+ Posix.sep +:+ p)) with false. cbv iota.
  assert (Hq : Posix.normalizeString true ("." +:+ Posix.sep +:+ p)
               = Str.join Posix.sep_char (".." :: rest ++ rev normals)).
  { unfold Posix.normalizeString.
    change (Str.split Posix.sep_char ("." +:+ Posix.sep +:+ p))
      with ("." :: Str.split Posix.sep_char p).
    cbn [fold_left]. change (Posix.norm_step true [] ".") with (@nil string).
    cbn [app] in Hfold. rewrite Hfold, rev_app_distr, Hrev. reflexivity. }
  cbn [negb]. rewrite Hq.
  destruct (join_up_first (rest ++ rev normals)) as (t & -> & Ht).
  change (Str.is_empty (".." +:+ t)) with false. cbv iota.
  destruct (Str.ends_with_char Posix.sep_char ("." +:+ Posix.sep +:+ p));
    destruct Ht as [->|[t' ->]]; reflexivity.
Qed.

End TraversalFacts.

Module PathFacts.

(** The path functions on a few inputs. *)
Example normalize_samples :
  Posix.normalize "./../a/b" = "../a/b"
  /\ Posix.normalize "/a/b/../c/" = "/a/c/"
  /\ Posix.normalize "a//b/./c/.." = "a/b"
  /\ Posix.normalize "/.." = "/".
Proof. repeat split. Qed.

Example basename_samples :
  Posix.basename "/a/b.txt" = "b.txt"
  /\ Posix.basename "/a/b//" = "b"
  /\ Posix.basename_ext "/a/b.txt.br" ".br" = "b.txt"
  /\ Posix.extname "/a/.profile" = ""
  /\ Posix.extname "/a/b.tar.gz" = ".gz".
Proof. repeat split. Qed.

Example resolvePath_samples :
  ResolvePath.resolvePath "/srv" "/srv/www" "a/b.txt" = inr "/srv/www/a/b.txt"
  /\ ResolvePath.resolvePath "/srv" "" "a/../b/" = inr "/srv/b/"
  /\ ResolvePath.resolvePath "/srv" "/srv/www" "a/../../b"
     = inl (HttpError 403 "Forbidden")
  /\ ResolvePath.resolvePath "/srv" "/srv/www" "/etc/passwd"
     = inl (HttpError 400 "Malicious Path").
Proof. repeat split. Qed.

Lemma split_no_sep (c : ascii) (s : string) :
  Str.contains_char c s = false -> Str.split c s = [s].
Proof.
  induction s as [|d r IH]; intros H; [reflexivity|].
  cbn in H |- *. apply orb_false_iff in H as [Hd Hr].
  rewrite Hd, (IH Hr). reflexivity.
Qed.

(** Appending a suffix without separator extends the last segment. *)
Lemma split_app_last (c : ascii) (s p : string) :
  Str.contains_char c s = false ->
  exists init lst,
    Str.split c p = init ++ [lst] /\ Str.split c (p +:+ s) = init ++ [lst +:+ s].
Proof.
  intros Hs. induction p as [|d r (init & lst & E1 & E2)].
  - exists [], "". split; [reflexivity|].
    exact (split_no_sep _ _ Hs).
  - simpl. destruct (Ascii.eqb d c).
    + exists ("" :: init), lst. rewrite E1, E2. auto.
    + rewrite E1, E2. destruct init as [|h t].
      * exists [], (String d lst). auto.
      * exists (String d h :: t), lst. auto.
Qed.

Lemma last_nonempty_snoc (init : list string) (x : string) :
  Str.is_empty x = false -> Posix.last_nonempty (init ++ [x]) = x.
Proof.
  intros Hx. induction init as [|h t IH].
  - cbn. destruct x; [discriminate | reflexivity].
  - cbn [app Posix.last_nonempty]. rewrite IH, Hx. reflexivity.
Qed.

Lemma contains_char_app_r (c : ascii) (a b : string) :
  Str.contains_char c b = true -> Str.contains_char c (a +:+ b) = true.
Proof.
  intros Hb. induction a as [|d r IH]; [exact Hb|].
  simpl. rewrite IH. apply orb_true_r.
Qed.

Lemma is_empty_app_r (a b : string) :
  Str.is_empty b = false -> Str.is_empty (a +:+ b) = false.
Proof. intros Hb. destruct a; [exact Hb | reflexivity]. Qed.

(** A path that ends in a dotted suffix without separator has a dot in
    its basename. *)
Lemma basename_dotted_suffix (p s : string) :
  Str.contains_char Posix.sep_char s = false ->
  Str.contains_char "." s = true ->
  Str.contains_char "." (Posix.basename (p +:+ s)) = true.
Proof.
  intros Hsep Hdot. unfold Posix.basename.
  destruct (split_app_last Posix.sep_char s p Hsep) as (init & lst & _ & ->).
  assert (Hne : Str.is_empty s = false) by (destruct s; [discriminate | reflexivity]).
  rewrite last_nonempty_snoc by (apply is_empty_app_r; exact Hne).
  apply contains_char_app_r; exact Hdot.
Qed.

Lemma basename_br (p : string) :
  Str.contains_char "." (Posix.basename (p +:+ ".br")) = true.
Proof. apply basename_dotted_suffix; reflexivity. Qed.

Lemma basename_gz (p : string) :
  Str.contains_char "." (Posix.basename (p +:+ ".gz")) = true.
Proof. apply basename_dotted_suffix; reflexivity. Qed.

Lemma suffix_br_gz (p : string) : Access (p +:+ ".gz") <> Access (p +:+ ".br").
Proof.
  intros [= H]. apply (inj (String.app p)) in H. discriminate.
Qed.

End PathFacts.

(* ===================================================================== *)
(** ** Facts about [decodeURIComponent] *)
(* ===================================================================== *)

Module UriFacts.

Example decode_samples :
  Uri.decodeURIComponent "a%20b%2Fc" = Some "a b/c"
  /\ Uri.decodeURIComponent "%E2%82%AC" = Some (String "226" (String "130" (String "172" "")))
  /\ Uri.decodeURIComponent "%" = None
  /\ Uri.decodeURIComponent "%zz" = None
  /\ Uri.decodeURIComponent "%C0%AF" = None.
Proof. repeat split. Qed.

(** A character other than ["%"] decodes to itself. *)
Lemma decode_literal (c : ascii) (q : string) :
  Ascii.eqb c "%" = false ->
  Uri.decodeURIComponent (String c q)
  = option_map (String c) (Uri.decodeURIComponent q).
Proof.
  intros Hc. unfold Uri.decodeURIComponent. cbn [Uri.unescape]. rewrite Hc.
  destruct (Uri.unescape q) as [ts|]; [|reflexivity].
  cbn [Uri.assemble]. destruct (Uri.assemble ts); reflexivity.
Qed.

(** A string without ["%"] decodes to itself. *)
Lemma decode_no_percent (p : string) :
  Str.contains_char "%" p = false -> Uri.decodeURIComponent p = Some p.
Proof.
  induction p as [|c r IH]; intros H; [reflexivity|].
  cbn [Str.contains_char] in H. apply orb_false_iff in H as [Hc Hr].
  rewrite (decode_literal _ _ Hc), (IH Hr). reflexivity.
Qed.





End UriFacts.

(* ===================================================================== *)
(** ** How each stage runs *)
(* ===================================================================== *)

Module StageFacts.

Section WithWorld.

Variable w : World.

Lemma exists_run (p : string) (s : State) :
  exists_ w p s = (Normal (bool_decide (access w p = None)), push (Access p) s).
Proof.
  unfold exists_, bind, log, push. destruct (access w p); reflexivity.
Qed.

Lemma stat_run (p : string) (s : State) :
  stat_ w p s =
    (match stat w p with
     | inl e => Threw (SystemError e None)
     | inr st => Normal st
     end, push (Stat p) s).
Proof.
  unfold stat_, bind, log, push. destruct (stat w p); reflexivity.
Qed.

(** Brotli is tried first and wins when it matches. *)
Lemma negotiate_br (brotli gzip : bool) (path : string) (s : State) :
  acceptsEncodings (ctx s) ["br"; "identity"] = Some "br" ->
  brotli = true ->
  access w (path +:+ ".br") = None ->
  negotiate w brotli gzip path s
  = (Normal (path +:+ ".br", ".br"), encoded "br" ".br" path s).
Proof.
  intros Hacc -> Hbr. unfold negotiate, bind, read.
  rewrite Hacc. cbn [bool_decide andb].
  rewrite bool_decide_eq_true_2 by reflexivity. cbn [andb].
  rewrite exists_run, Hbr. reflexivity.
Qed.

Lemma encoded_cache (enc suffix path : string) (s : State) :
  headers (ctx (encoded enc suffix path s)) !! "cache-control"
  = headers (ctx s) !! "cache-control".
Proof.
  unfold encoded, on_ctx, push, removeHeader, set, with_headers.
  cbn [ctx headers].
  change (Str.lower "Content-Length") with "content-length".
  change (Str.lower "Content-Encoding") with "content-encoding".
  rewrite lookup_delete_ne by discriminate.
  rewrite lookup_insert_ne by discriminate. reflexivity.
Qed.

Local Ltac settle :=
  match goal with
  | Hin1 : (forall a c : FsCall, In c [a] -> c = a),
    Hin2 : (forall a b c : FsCall, In c [a; b] -> c = a \/ c = b),
    Henc : (forall enc suffix path s, _ = _) |- _ =>
      first [ reflexivity
            | solve [auto]
            | cbn; rewrite <- app_assoc; reflexivity
            | rewrite app_nil_r; reflexivity
            | rewrite Henc; reflexivity
            | let c := fresh "c" in let Hc := fresh "Hc" in
              intros c Hc;
              first [ left; exact (Hin1 _ _ Hc) | right; exact (Hin1 _ _ Hc)
                    | exact (Hin2 _ _ _ Hc) | destruct Hc ] ]
  end.

(** Whatever happens, negotiation completes normally, probes nothing
    but the two siblings, yields the path with the suffix it reports,
    and leaves the Cache-Control header alone. *)
Lemma negotiate_run (brotli gzip : bool) (path : string) (s : State) :
  exists p' ext s' probes,
    negotiate w brotli gzip path s = (Normal (p', ext), s')
    /\ trace s' = trace s ++ probes
    /\ (forall c, In c probes ->
          c = Access (path +:+ ".br") \/ c = Access (path +:+ ".gz"))
    /\ (p' = path /\ ext = "" \/ p' = path +:+ ".br" /\ ext = ".br"
        \/ p' = path +:+ ".gz" /\ ext = ".gz")
    /\ headers (ctx s') !! "cache-control" = headers (ctx s) !! "cache-control".
Proof.
  assert (Hin1 : forall a c : FsCall, In c [a] -> c = a)
    by (intros a c [<-|[]]; reflexivity).
  assert (Hin2 : forall a b c : FsCall, In c [a; b] -> c = a \/ c = b)
    by (intros a b c [<-|[<-|[]]]; auto).
  pose proof encoded_cache as Henc.
  assert (Hnil : forall l : list FsCall, l = l ++ []) by (intros; rewrite app_nil_r; reflexivity).
  unfold negotiate, bind, read.
  destruct (bool_decide (acceptsEncodings (ctx s) ["br"; "identity"] = Some "br")
            && brotli) eqn:Ebr.
  - rewrite exists_run. destruct (bool_decide (access w (path +:+ ".br") = None)).
    + exists (path +:+ ".br"), ".br", (encoded "br" ".br" path s),
        [Access (path +:+ ".br")].
      split_and!; settle.
    + cbn [ctx push].
      destruct (bool_decide (acceptsEncodings (ctx s) ["gzip"; "identity"] = Some "gzip")
                && gzip) eqn:Egz.
      * rewrite exists_run.
        destruct (bool_decide (access w (path +:+ ".gz") = None)).
        -- exists (path +:+ ".gz"), ".gz",
             (encoded "gzip" ".gz" path (push (Access (path +:+ ".br")) s)),
             [Access (path +:+ ".br"); Access (path +:+ ".gz")].
           split_and!; settle.
        -- exists path, "",
             (push (Access (path +:+ ".gz")) (push (Access (path +:+ ".br")) s)),
             [Access (path +:+ ".br"); Access (path +:+ ".gz")].
           split_and!; settle.
      * exists path, "", (push (Access (path +:+ ".br")) s),
          [Access (path +:+ ".br")].
        split_and!; settle.
  - unfold ret at 1. cbv beta iota.
    destruct (bool_decide (acceptsEncodings (ctx s) ["gzip"; "identity"] = Some "gzip")
              && gzip) eqn:Egz.
    + rewrite exists_run.
      destruct (bool_decide (access w (path +:+ ".gz") = None)).
      * exists (path +:+ ".gz"), ".gz", (encoded "gzip" ".gz" path s),
          [Access (path +:+ ".gz")].
        split_and!; settle.
      * exists path, "", (push (Access (path +:+ ".gz")) s),
          [Access (path +:+ ".gz")].
        split_and!; settle.
    + exists path, "", s, []. split_and!; settle.
Qed.


(** The extension loop probes candidates only, touches no header, and
    either yields a path or throws. *)
Lemma probe_run (path : string) (list : list JsValue) (s : State) :
  exists r s' probes,
    probe w path list s = (r, s')
    /\ ctx s' = ctx s
    /\ trace s' = trace s ++ probes
    /\ Forall is_access probes
    /\ r <> Returned.
Proof.
  revert s. induction list as [|v rest IH]; intros s.
  - exists (Normal path), s, []. cbn. rewrite app_nil_r.
    repeat split; auto; discriminate.
  - assert (Hthrow : exists r s' probes,
               throw (TypeError "option extensions must be array of strings or false") s
                 = (r, s') /\ ctx s' = ctx s /\ trace s' = trace s ++ probes
               /\ Forall is_access probes /\ r <> Returned (A:=string)).
    { eexists _, s, []. unfold throw. rewrite app_nil_r.
      repeat split; auto; discriminate. }
    destruct v; try exact Hthrow.
    cbn [probe]. cbv zeta. unfold bind. rewrite exists_run.
    set (cand := path +:+ with_dot s0).
    destruct (bool_decide (access w cand = None)).
    + exists (Normal cand), (push (Access cand) s), [Access cand].
      repeat split; auto; try discriminate.
      constructor; [exists cand; reflexivity | constructor].
    + destruct (IH (push (Access cand) s)) as (r & s' & probes & E & Hc & Ht & Hf & Hr).
      exists r, s', (Access cand :: probes).
      repeat split; auto.
      * rewrite Ht. cbn. rewrite <- app_assoc. reflexivity.
      * constructor; [exists cand; reflexivity | exact Hf].
Qed.


Lemma extension_run (exts : option (list JsValue)) (path : string)
    (s : State) :
  exists r s' probes,
    extension_fallback w exts path s = (r, s')
    /\ ctx s' = ctx s
    /\ trace s' = trace s ++ probes
    /\ Forall is_access probes
    /\ r <> Returned.
Proof.
  assert (Hsame : exists r s' probes,
             ret path s = (r, s') /\ ctx s' = ctx s /\ trace s' = trace s ++ probes
             /\ Forall is_access probes /\ r <> Returned).
  { exists (Normal path), s, []. rewrite app_nil_r.
    repeat split; auto; discriminate. }
  unfold extension_fallback. destruct exts as [list|]; [|exact Hsame].
  destruct (negb _); [apply probe_run | exact Hsame].
Qed.

(** The extension stage does nothing when the basename has a dot. *)
Lemma extension_skipped (exts : option (list JsValue))
    (path : string) (s : State) :
  Str.contains_char "." (Posix.basename path) = true ->
  extension_fallback w exts path s = (Normal path, s).
Proof.
  intros H. unfold extension_fallback. rewrite H. destruct exts; reflexivity.
Qed.

Lemma on_stat_error_run {A} (e : FsErr) (s : State) :
  on_stat_error (A:=A) (SystemError e None) s = (Threw (classified e), s).
Proof.
  unfold on_stat_error, is_notfound, classified. cbn [code_of].
  destruct (existsb _ _); reflexivity.
Qed.

Lemma stat_stage_run (format : bool) (index : option string)
    (path : string) (s : State) :
  stat_stage w format index path s =
    match stat w path with
    | inl e => (Threw (classified e), push (Stat path) s)
    | inr st =>
        if isDirectory st then
          if format && truthy_str index then
            let path' := path +:+ "/" +:+ str_of index in
            match stat w path' with
            | inl e => (Threw (classified e), push (Stat path') (push (Stat path) s))
            | inr st' => (Normal (path', st'), push (Stat path') (push (Stat path) s))
            end
          else (Returned, push (Stat path) s)
        else (Normal (path, st), push (Stat path) s)
    end.
Proof.
  unfold stat_stage, try_catch, bind. rewrite stat_run.
  destruct (stat w path) as [e|st].
  - apply on_stat_error_run.
  - destruct (isDirectory st); [|reflexivity].
    destruct (format && truthy_str index); [|reflexivity].
    cbv zeta. rewrite stat_run.
    destruct (stat w (path +:+ "/" +:+ str_of index)) as [e|st'].
    + apply on_stat_error_run.
    + reflexivity.
Qed.

End WithWorld.

Lemma respond_run (sh : SetHeaders) (maxage : Z) (immutable : bool)
    (ext path : string) (stats : Stats) (s : State) :
  respond sh maxage immutable ext path stats s
  = (Normal path, on_ctx (responded sh maxage immutable ext path stats) s).
Proof.
  unfold respond, responded, default_type, default_header, hooked, call_hook,
    bind, read, update, ret, on_ctx.
  destruct sh; cbn [ctx trace].
  all: match goal with
       | |- context [Str.is_empty (get "Last-Modified" ?c)] =>
           destruct (Str.is_empty (get "Last-Modified" c))
       end; cbn [ctx trace].
  all: match goal with
       | |- context [Str.is_empty (get "Cache-Control" ?c)] =>
           destruct (Str.is_empty (get "Cache-Control" c))
       end; cbn [ctx trace].
  all: match goal with
       | |- context [Str.is_empty (get_type ?c)] =>
           destruct (Str.is_empty (get_type c))
       end; reflexivity.
Qed.

Lemma set_type_cache (t : string) (c : Context) :
  headers (set_type t c) !! "cache-control" = headers c !! "cache-control".
Proof.
  unfold set_type, set, removeHeader, with_headers.
  change (Str.lower "Content-Type") with "content-type".
  destruct (mime c t) as [ct|]; [destruct (Str.is_empty ct)|]; cbn [headers].
  - apply lookup_delete_ne. discriminate.
  - apply lookup_insert_ne. discriminate.
  - apply lookup_delete_ne. discriminate.
Qed.

(** Assigning the body leaves Cache-Control alone. *)
Lemma set_body_cache (p : string) (c : Context) :
  headers (set_body p c) !! "cache-control" = headers c !! "cache-control".
Proof.
  unfold set_body. cbv zeta. cbn [headers].
  assert (H1 : headers (match body c with
                        | Some _ => removeHeader "Content-Length" c
                        | None => c
                        end) !! "cache-control" = headers c !! "cache-control").
  { destruct (body c); [|reflexivity].
    unfold removeHeader, with_headers. cbn [headers].
    change (Str.lower "Content-Length") with "content-length".
    apply lookup_delete_ne. discriminate. }
  destruct (negb (has "Content-Type" c)); [rewrite set_type_cache|]; exact H1.
Qed.

(** What [respond] leaves in Cache-Control: its own directives when the
    header, as the hook left it, is absent or empty; that header
    otherwise. *)
Lemma responded_cache (sh : SetHeaders) (m : Z) (imm : bool) (ext p : string)
    (st : Stats) (c : Context) :
  headers (Stages.responded sh m imm ext p st c) !! "cache-control"
  = if Str.is_empty (get "Cache-Control" (Stages.hooked sh p st c))
    then Some (cache_control m imm)
    else headers (Stages.hooked sh p st c) !! "cache-control".
Proof.
  unfold Stages.responded. set (c1 := Stages.hooked sh p st c).
  set (c2 := set "Content-Length" _ c1).
  set (c3 := Stages.default_header "Last-Modified" _ c2).
  assert (H2 : headers c2 !! "cache-control" = headers c1 !! "cache-control").
  { unfold c2, set, with_headers. cbn [headers].
    change (Str.lower "Content-Length") with "content-length".
    apply lookup_insert_ne. discriminate. }
  assert (H3 : headers c3 !! "cache-control" = headers c1 !! "cache-control").
  { rewrite <- H2. unfold c3, Stages.default_header, set, with_headers.
    destruct (Str.is_empty _); [|reflexivity]. cbn [headers].
    change (Str.lower "Last-Modified") with "last-modified".
    apply lookup_insert_ne. discriminate. }
  assert (G3 : get "Cache-Control" c3 = get "Cache-Control" c1).
  { unfold get. change (Str.lower "Cache-Control") with "cache-control".
    rewrite H3. reflexivity. }
  rewrite set_body_cache. unfold Stages.default_type.
  assert (Hty : forall c4 : Context,
            headers (if Str.is_empty (get_type c4)
                     then set_type (type p ext) c4 else c4) !! "cache-control"
            = headers c4 !! "cache-control").
  { intros c4. destruct (Str.is_empty _); [apply set_type_cache | reflexivity]. }
  rewrite Hty. unfold Stages.default_header. rewrite G3.
  destruct (Str.is_empty (get "Cache-Control" c1)); [|exact H3].
  unfold set, with_headers. cbn [headers].
  change (Str.lower "Cache-Control") with "cache-control".
  apply lookup_insert_eq.
Qed.

Lemma last_accesses (l : list FsCall) (p : string) :
  Forall Stages.is_access l -> last l <> Some (Stat p).
Proof.
  intros Hl Hlast. apply last_Some in Hlast as [l' ->].
  apply Forall_app in Hl as [_ Hl]. inversion Hl as [|? ? [q Hq] _]. discriminate.
Qed.

Lemma not_found_code_spec (code : string) :
  existsb (String.eqb code) notfound = true <-> not_found_code code.
Proof.
  unfold notfound, not_found_code. cbn [existsb].
  rewrite !orb_true_iff, !String.eqb_eq. intuition discriminate.
Qed.

Lemma isHidden_spec (root path : string) :
  isHidden root path = true <-> hidden_segment root path.
Proof.
  unfold isHidden, hidden_segment. rewrite existsb_exists.
  split; intros (seg & Hin & Hdot); exists seg; split; auto.
  - destruct seg as [|a r]; [discriminate|].
    cbn in Hdot |- *. apply Ascii.eqb_eq in Hdot. congruence.
  - destruct seg as [|a r]; [discriminate|].
    cbn in Hdot |- *. injection Hdot as ->. reflexivity.
Qed.

Lemma max_age_seconds_floor (m : Z) :
  (0 <= m < 2147483648000)%Z -> max_age_seconds m = (m / 1000)%Z.
Proof.
  intros Hm. unfold max_age_seconds, to_int32.
  rewrite Z.quot_div_nonneg by lia.
  assert (0 <= m / 1000 < 2147483648)%Z.
  { split; [apply Z.div_pos; lia | apply Z.div_lt_upper_bound; lia]. }
  rewrite Z.mod_small by lia. lia.
Qed.

Lemma cache_control_value (m : Z) (imm : bool) :
  cache_control m imm
  = if imm then ("max-age=" +:+ number_to_string (max_age_seconds m)) +:+ ",immutable"
    else "max-age=" +:+ number_to_string (max_age_seconds m).
Proof. destruct imm; reflexivity. Qed.

End StageFacts.

(* ===================================================================== *)
(** ** How a request runs *)
(* ===================================================================== *)

Module RequestFacts.

Import StageFacts.

Lemma send_at_join (w : World) (path : string) (opts : Options) (j : string) :
  join_argument path opts = Some j ->
  send w path opts =
    (rp <- lift (ResolvePath.resolvePath (cwd w) (root_of w opts) j) ;;
     if negb (or_false (opt_hidden opts)) && isHidden (root_of w opts) rp
     then return_undefined
     else serve w opts rp).
Proof.
  unfold join_argument, send, stripped.
  destruct (Str.is_empty path); [discriminate|].
  destruct (bad_setHeaders _); [discriminate|].
  destruct (decode _); [|discriminate].
  intros [= <-]. reflexivity.
Qed.

Lemma send_at_candidate (w : World) (path : string) (opts : Options) (rp : string) :
  candidate w path opts = Some rp ->
  send w path opts =
    (if negb (or_false (opt_hidden opts)) && isHidden (root_of w opts) rp
     then return_undefined
     else serve w opts rp).
Proof.
  unfold candidate. destruct (join_argument path opts) as [j|] eqn:Ej; [|discriminate].
  destruct (ResolvePath.resolvePath _ _ j) as [e|rp'] eqn:Er; [discriminate|].
  intros [= <-]. rewrite (send_at_join _ _ _ _ Ej), Er. reflexivity.
Qed.

(** A request that stops before the join makes no file system call and
    leaves the context as it was. *)
Lemma send_before_join (w : World) (path : string) (opts : Options) (s : State) :
  join_argument path opts = None ->
  exists e, send w path opts s = (Threw e, s).
Proof.
  unfold join_argument, send, stripped, throw.
  destruct (Str.is_empty path); [eauto|].
  destruct (bad_setHeaders _); [eauto|].
  destruct (decode _); [discriminate | eauto].
Qed.


(** The Cache-Control header after a resolved request. *)
Lemma resolved_cache (w : World) (c : Context) (path : string) (opts : Options)
    (fp : string) (c' : Context) (tr : list FsCall) :
  resolve w c path opts = (Resolved fp, c', tr) ->
  keeps_cache_control (opt_setHeaders opts) ->
  headers c' !! "cache-control"
  = if Str.is_empty (get "Cache-Control" c)
    then Some (cache_control (maxage_of opts) (or_false (opt_immutable opts)))
    else headers c !! "cache-control".
Proof.
  intros Hres Hkeep. unfold resolve, complete in Hres.
  destruct (join_argument path opts) as [j|] eqn:Ej.
  2: { destruct (send_before_join w path opts {| ctx := c; trace := [] |} Ej)
         as [e0 He0].
       rewrite He0 in Hres. discriminate. }
  rewrite (send_at_join _ _ _ _ Ej) in Hres. unfold bind at 1 in Hres.
  destruct (ResolvePath.resolvePath _ _ j) as [e0|rp]; cbn [lift] in Hres;
    [discriminate|].
  unfold ret at 1 in Hres.
  destruct (negb _ && isHidden _ rp); [discriminate|].
  unfold serve, bind in Hres.
  destruct (StageFacts.negotiate_run w (not_false (opt_brotli opts))
              (not_false (opt_gzip opts)) rp {| ctx := c; trace := [] |})
    as (p1 & ext & s1 & probes1 & E1 & _ & _ & _ & Hc1).
  rewrite E1 in Hres. cbn [ctx] in Hc1.
  destruct (StageFacts.extension_run w (opt_extensions opts) p1 s1)
    as (r2 & s2 & probes2 & E2 & Hc2 & _ & _ & Hr2).
  rewrite E2 in Hres.
  destruct r2 as [p2| |e2]; [|contradiction|discriminate].
  rewrite StageFacts.stat_stage_run in Hres.
  assert (Hfinal : forall p3 st3 s3,
            ctx s3 = ctx s2 ->
            (let '(r, s) := respond (opt_setHeaders opts) (maxage_of opts)
                              (or_false (opt_immutable opts)) ext p3 st3 s3 in
             (outcome_of r, ctx s, trace s)) = (Resolved fp, c', tr) ->
            headers c' !! "cache-control"
            = if Str.is_empty (get "Cache-Control" c)
              then Some (cache_control (maxage_of opts) (or_false (opt_immutable opts)))
              else headers c !! "cache-control").
  { intros p3 st3 s3 Hs3 H. rewrite StageFacts.respond_run in H.
    injection H as _ <- _. cbn [Stages.on_ctx ctx].
    rewrite responded_cache, Hs3, Hc2.
    assert (Hh : headers (Stages.hooked (opt_setHeaders opts) p3 st3 (ctx s1))
                   !! "cache-control" = headers c !! "cache-control").
    { rewrite <- Hc1. unfold Stages.hooked.
      destruct (opt_setHeaders opts) as [f|v]; [|reflexivity].
      cbn [with_headers headers]. apply Hkeep. }
    unfold get at 1 2. change (Str.lower "Cache-Control") with "cache-control".
    rewrite Hh. reflexivity. }
  destruct (stat w p2) as [e2|st2]; [discriminate|].
  destruct (isDirectory st2).
  - destruct (not_false (opt_format opts) && truthy_str (opt_index opts));
      [|discriminate].
    cbv zeta in Hres. destruct (stat w _) as [e3|st3]; [discriminate|].
    eapply Hfinal; [|exact Hres]; reflexivity.
  - eapply Hfinal; [|exact Hres]; reflexivity.
Qed.

End RequestFacts.

Import TraversalFacts PathFacts UriFacts StageFacts RequestFacts.

(* ===================================================================== *)
(** ** Properties of the resolution *)
(* ===================================================================== *)

(* --------------------------------------------------------------------- *)
(** *** Containment *)

(** C1. A request path whose decoded form climbs above the root is
    refused by the join step: [send] fails with the error the join
    raises (403, or 400 when the path is also absolute or holds a NUL
    byte), the context is untouched and no file system call is made. *)
Theorem traversal_is_refused (w : World) (c : Context) (path : string)
    (opts : Options) (j : string) :
  join_argument path opts = Some j ->
  Traversal.escapes_root j = true ->
  exists e,
    ResolvePath.resolvePath (cwd w) (root_of w opts) j = inl e
    /\ (e = HttpError 403 "Forbidden" \/ e = HttpError 400 "Malicious Path")
    /\ resolve w c path opts = (Failed e, c, []).
Proof.
  intros Hj Hesc.
  assert (He : exists e,
             ResolvePath.resolvePath (cwd w) (root_of w opts) j = inl e
             /\ (e = HttpError 403 "Forbidden" \/ e = HttpError 400 "Malicious Path")).
  { unfold ResolvePath.resolvePath.
    destruct (Str.contains_char _ j); [eauto|].
    destruct (Posix.isAbsolute j || ResolvePath.win32_isAbsolute j); [eauto|].
    rewrite (TraversalFacts.escapes_up_path j Hesc). eauto. }
  destruct He as (e & Hr & He). exists e. split_and!; [exact Hr | exact He |].
  unfold resolve, complete. rewrite (send_at_join _ _ _ _ Hj).
  unfold bind. rewrite Hr. reflexivity.
Qed.

Lemma traversal_is_refused_witness :
  exists e,
    ResolvePath.resolvePath "/srv" "/srv/www" "../../etc/passwd" = inl e
    /\ (e = HttpError 403 "Forbidden" \/ e = HttpError 400 "Malicious Path")
    /\ resolve Demo.world Demo.eager "/../../etc/passwd" Demo.site
       = (Failed e, Demo.eager, []).
Proof.
  apply (traversal_is_refused Demo.world Demo.eager "/../../etc/passwd" Demo.site
           "../../etc/passwd"); reflexivity.
Defined.

(* --------------------------------------------------------------------- *)
(** *** Precompressed variants *)

(** C2. When the client accepts both br and gzip, both options are
    enabled and both siblings exist, negotiation yields the [.br] sibling
    with suffix [".br"]; the request probes the [.br] sibling, then stats
    it, and never probes the [.gz] sibling; a resolved request serves the
    [.br] sibling (or the index under it). *)
Theorem brotli_wins (w : World) (c : Context) (path : string) (opts : Options)
    (rp : string) :
  candidate w path opts = Some rp ->
  negb (or_false (opt_hidden opts)) && isHidden (root_of w opts) rp = false ->
  acceptsEncodings c ["br"; "identity"] = Some "br" ->
  acceptsEncodings c ["gzip"; "identity"] = Some "gzip" ->
  not_false (opt_brotli opts) = true ->
  not_false (opt_gzip opts) = true ->
  access w (rp +:+ ".br") = None ->
  access w (rp +:+ ".gz") = None ->
  negotiate w (not_false (opt_brotli opts)) (not_false (opt_gzip opts)) rp
            {| ctx := c; trace := [] |}
  = (Normal (rp +:+ ".br", ".br"),
     {| ctx := removeHeader "Content-Length" (set "Content-Encoding" "br" c);
        trace := [Access (rp +:+ ".br")] |})
  /\ exists out c' rest,
       resolve w c path opts
       = (out, c', Access (rp +:+ ".br") :: Stat (rp +:+ ".br") :: rest)
       /\ ~ In (Access (rp +:+ ".gz")) rest
       /\ forall fp, out = Resolved fp ->
            body c' = Some fp
            /\ (fp = rp +:+ ".br"
                \/ fp = (rp +:+ ".br") +:+ "/" +:+ str_of (opt_index opts)).
Proof.
  intros Hcand Hhid Hbr Hgz Hob Hog Hfbr Hfgz.
  assert (Hneg : negotiate w (not_false (opt_brotli opts)) (not_false (opt_gzip opts)) rp
                   {| ctx := c; trace := [] |}
                 = (Normal (rp +:+ ".br", ".br"),
                    {| ctx := removeHeader "Content-Length" (set "Content-Encoding" "br" c);
                       trace := [Access (rp +:+ ".br")] |})).
  { rewrite StageFacts.negotiate_br by assumption. reflexivity. }
  split; [exact Hneg|].
  unfold resolve, complete. rewrite (send_at_candidate _ _ _ _ Hcand), Hhid.
  unfold serve, bind. rewrite Hneg.
  rewrite StageFacts.extension_skipped by apply PathFacts.basename_br.
  rewrite StageFacts.stat_stage_run. cbn [Stages.push ctx trace app].
  destruct (stat w (rp +:+ ".br")) as [e|st].
  { eexists _, _, []. split_and!; [reflexivity | intros [] | discriminate]. }
  destruct (isDirectory st).
  - destruct (not_false (opt_format opts) && truthy_str (opt_index opts)).
    + cbv zeta.
      destruct (stat w ((rp +:+ ".br") +:+ "/" +:+ str_of (opt_index opts))) as [e|st'].
      * eexists _, _, [_]. split_and!; [reflexivity | | discriminate].
        intros [H|[]]; discriminate.
      * rewrite StageFacts.respond_run. cbn [Stages.on_ctx ctx trace app outcome_of].
        eexists _, _, [_]. split_and!; [reflexivity | | ].
        -- intros [H|[]]; discriminate.
        -- intros fp [= <-]. split; [reflexivity | right; reflexivity].
    + eexists _, _, []. split_and!; [reflexivity | intros [] | discriminate].
  - rewrite StageFacts.respond_run. cbn [Stages.on_ctx ctx trace app outcome_of].
    eexists _, _, []. split_and!; [reflexivity | intros [] |].
    intros fp [= <-]. split; [reflexivity | left; reflexivity].
Qed.

Lemma brotli_wins_witness :
  negotiate Demo.world true true "/srv/www/app.js" {| ctx := Demo.eager; trace := [] |}
  = (Normal ("/srv/www/app.js.br", ".br"),
     {| ctx := removeHeader "Content-Length" (set "Content-Encoding" "br" Demo.eager);
        trace := [Access "/srv/www/app.js.br"] |})
  /\ exists out c' rest,
       resolve Demo.world Demo.eager "/app.js" Demo.site
       = (out, c', Access "/srv/www/app.js.br" :: Stat "/srv/www/app.js.br" :: rest)
       /\ ~ In (Access "/srv/www/app.js.gz") rest
       /\ forall fp, out = Resolved fp ->
            body c' = Some fp
            /\ (fp = "/srv/www/app.js.br" \/ fp = "/srv/www/app.js.br/").
Proof.
  apply (brotli_wins Demo.world Demo.eager "/app.js" Demo.site "/srv/www/app.js");
    reflexivity.
Defined.

(* --------------------------------------------------------------------- *)
(** *** Classification of stat failures *)

(** C3. When the last file system call of a request is a [stat] that
    fails, the request fails with that very error, given status 404 when
    its code is ENOENT, ENAMETOOLONG or ENOTDIR, and status 500 for any
    other code; so the status is 404 exactly for these three codes. *)
Theorem stat_failure_status (w : World) (c : Context) (path : string)
    (opts : Options) (out : Outcome) (c' : Context) (tr : list FsCall)
    (p : string) (e : FsErr) :
  resolve w c path opts = (out, c', tr) ->
  last tr = Some (Stat p) ->
  stat w p = inl e ->
  (not_found_code (err_code e) -> out = Failed (SystemError e (Some 404%Z)))
  /\ (~ not_found_code (err_code e) -> out = Failed (SystemError e (Some 500%Z)))
  /\ (out = Failed (SystemError e (Some 404%Z)) <-> not_found_code (err_code e)).
Proof.
  intros Hres Hlast Hstat.
  assert (Hout : out = Failed (Stages.classified e)).
  { unfold resolve, complete in Hres.
    destruct (join_argument path opts) as [j|] eqn:Ej.
    2: { destruct (send_before_join w path opts {| ctx := c; trace := [] |} Ej)
           as [e0 He0].
         rewrite He0 in Hres. injection Hres as <- <- <-. discriminate. }
    rewrite (send_at_join _ _ _ _ Ej) in Hres. unfold bind at 1 in Hres.
    destruct (ResolvePath.resolvePath _ _ j) as [e0|rp]; cbn [lift] in Hres.
    { injection Hres as <- <- <-. discriminate. }
    unfold ret at 1 in Hres.
    destruct (negb _ && isHidden _ rp).
    { injection Hres as <- <- <-. discriminate. }
    unfold serve, bind in Hres.
    destruct (StageFacts.negotiate_run w (not_false (opt_brotli opts))
                (not_false (opt_gzip opts)) rp {| ctx := c; trace := [] |})
      as (p1 & ext & s1 & probes1 & E1 & T1 & Hp1 & _ & _).
    rewrite E1 in Hres. cbn [trace app] in T1.
    assert (Ha1 : Forall Stages.is_access probes1).
    { apply List.Forall_forall. intros x Hx.
      destruct (Hp1 x Hx) as [->| ->]; eexists; reflexivity. }
    destruct (StageFacts.extension_run w (opt_extensions opts) p1 s1)
      as (r2 & s2 & probes2 & E2 & _ & T2 & Ha2 & Hr2).
    rewrite E2 in Hres.
    assert (Ha : Forall Stages.is_access (trace s2)).
    { rewrite T2, T1. apply Forall_app; auto. }
    destruct r2 as [p2| |e2]; [|contradiction|].
    2: { injection Hres as <- <- <-. exfalso. exact (last_accesses _ _ Ha Hlast). }
    rewrite StageFacts.stat_stage_run in Hres.
    destruct (stat w p2) as [e2|st2] eqn:Es2.
    { injection Hres as <- <- <-. cbn [Stages.push trace] in Hlast.
      rewrite last_snoc in Hlast. injection Hlast as ->.
      rewrite Hstat in Es2. injection Es2 as ->. reflexivity. }
    destruct (isDirectory st2).
    - destruct (not_false (opt_format opts) && truthy_str (opt_index opts)).
      + cbv zeta in Hres.
        destruct (stat w (p2 +:+ "/" +:+ str_of (opt_index opts))) as [e3|st3] eqn:Es3.
        * injection Hres as <- <- <-. cbn [Stages.push trace] in Hlast.
          rewrite last_snoc in Hlast. injection Hlast as <-.
          rewrite Hstat in Es3. injection Es3 as ->. reflexivity.
        * rewrite StageFacts.respond_run in Hres. injection Hres as <- <- <-.
          cbn [Stages.on_ctx Stages.push trace] in Hlast.
          rewrite last_snoc in Hlast. injection Hlast as <-. congruence.
      + injection Hres as <- <- <-. cbn [Stages.push trace] in Hlast.
        rewrite last_snoc in Hlast. injection Hlast as <-. congruence.
    - rewrite StageFacts.respond_run in Hres. injection Hres as <- <- <-.
      cbn [Stages.on_ctx Stages.push trace] in Hlast.
      rewrite last_snoc in Hlast. injection Hlast as <-. congruence. }
  subst out. unfold Stages.classified.
  pose proof (not_found_code_spec (err_code e)) as Hspec.
  destruct (existsb (String.eqb (err_code e)) notfound).
  - assert (Hnf : not_found_code (err_code e)) by (apply Hspec; reflexivity).
    split_and!; [reflexivity | contradiction | split; auto].
  - assert (Hnf : ~ not_found_code (err_code e)).
    { intros H. apply Hspec in H. discriminate. }
    split_and!; [contradiction | reflexivity |].
    split; [discriminate | contradiction].
Qed.

Lemma stat_failure_status_witness :
  (not_found_code "EACCES" ->
   Failed (SystemError Demo.eacces (Some 500%Z))
   = Failed (SystemError Demo.eacces (Some 404%Z)))
  /\ (~ not_found_code "EACCES" ->
      Failed (SystemError Demo.eacces (Some 500%Z))
      = Failed (SystemError Demo.eacces (Some 500%Z)))
  /\ (Failed (SystemError Demo.eacces (Some 500%Z))
      = Failed (SystemError Demo.eacces (Some 404%Z)) <-> not_found_code "EACCES").
Proof.
  apply (stat_failure_status Demo.world Demo.plain "/locked" Demo.site
           (Failed (SystemError Demo.eacces (Some 500%Z))) Demo.plain
           [Stat "/srv/www/locked"] "/srv/www/locked" Demo.eacces); reflexivity.
Defined.

(* --------------------------------------------------------------------- *)
(** *** Hidden files *)

(** C4. For a candidate path with a hidden segment relative to the root:
    when the [hidden] option is not set, the request returns nothing (it
    is not an error), touches no header and makes no file system call;
    when [hidden] is set, the request runs the rest of the pipeline on the
    candidate path. *)
Theorem hidden_paths (w : World) (c : Context) (path : string) (opts : Options)
    (rp : string) :
  candidate w path opts = Some rp ->
  hidden_segment (root_of w opts) rp ->
  (or_false (opt_hidden opts) = false ->
     resolve w c path opts = (NotApplicable, c, []))
  /\ (or_false (opt_hidden opts) = true ->
        resolve w c path opts = complete (serve w opts rp) c).
Proof.
  intros Hcand Hseg. apply isHidden_spec in Hseg.
  unfold resolve. rewrite (send_at_candidate _ _ _ _ Hcand), Hseg.
  split; intros ->; reflexivity.
Qed.

Lemma hidden_paths_witness :
  (or_false (opt_hidden Demo.site) = false ->
     resolve Demo.world Demo.plain "/.env" Demo.site = (NotApplicable, Demo.plain, []))
  /\ (or_false (opt_hidden Demo.site) = true ->
        resolve Demo.world Demo.plain "/.env" Demo.site
        = complete (serve Demo.world Demo.site "/srv/www/.env") Demo.plain).
Proof.
  apply (hidden_paths Demo.world Demo.plain "/.env" Demo.site "/srv/www/.env").
  - reflexivity.
  - exists ".env". split; [vm_compute; auto | reflexivity].
Defined.

(** With [hidden] set, the hidden file of the demo site is served. *)
Example hidden_served :
  fst (fst (resolve Demo.world Demo.plain "/.env" (Demo.with_hidden true Demo.site)))
  = Resolved "/srv/www/.env".
Proof. reflexivity. Qed.

(* --------------------------------------------------------------------- *)
(** *** Extension fallback *)




(** C10. Extension fallback is skipped whenever the basename of the path
    has a dot anywhere: the stage yields the path unchanged and probes
    nothing, whatever the extensions list.  In a request whose candidate
    path has such a basename, the only existence checks are those of the
    two precompressed siblings. *)
Theorem dotted_basename_skips_extensions (w : World) :
  (forall (exts : option (list JsValue)) (p : string) (s : State),
     Str.contains_char "." (Posix.basename p) = true ->
     extension_fallback w exts p s = (Normal p, s))
  /\ (forall (c : Context) (path : string) (opts : Options) (rp q : string),
        candidate w path opts = Some rp ->
        Str.contains_char "." (Posix.basename rp) = true ->
        In (Access q) (snd (resolve w c path opts)) ->
        q = rp +:+ ".br" \/ q = rp +:+ ".gz").
Proof.
  split; [intros; apply StageFacts.extension_skipped; assumption|].
  intros c path opts rp q Hcand Hdot.
  unfold resolve, complete. rewrite (send_at_candidate _ _ _ _ Hcand).
  destruct (negb _ && isHidden _ rp); [intros []|].
  unfold serve, bind.
  destruct (StageFacts.negotiate_run w (not_false (opt_brotli opts))
              (not_false (opt_gzip opts)) rp {| ctx := c; trace := [] |})
    as (p1 & ext & s1 & probes1 & E1 & T1 & Hp1 & Hshape & _).
  rewrite E1. cbn [trace app] in T1.
  assert (Hdot1 : Str.contains_char "." (Posix.basename p1) = true).
  { destruct Hshape as [[-> _]|[[-> _]|[-> _]]];
      [exact Hdot | apply PathFacts.basename_br | apply PathFacts.basename_gz]. }
  rewrite StageFacts.extension_skipped by exact Hdot1.
  rewrite StageFacts.stat_stage_run.
  assert (Hkeep : forall l, In (Access q) (trace s1 ++ l) ->
                            Forall (fun x => exists p, x = Stat p) l ->
                            q = rp +:+ ".br" \/ q = rp +:+ ".gz").
  { intros l Hin Hl. apply in_app_or in Hin as [Hin|Hin].
    - rewrite T1 in Hin. destruct (Hp1 _ Hin) as [[= ->]|[= ->]]; auto.
    - rewrite List.Forall_forall in Hl. destruct (Hl _ Hin) as [? ?]. discriminate. }
  assert (S1 : forall a, Forall (fun x : FsCall => exists p, x = Stat p) [Stat a])
    by (intros; repeat constructor; eexists; reflexivity).
  assert (S2 : forall a b, Forall (fun x : FsCall => exists p, x = Stat p) [Stat a; Stat b])
    by (intros; repeat constructor; eexists; reflexivity).
  destruct (stat w p1) as [e|st]; [cbn; intros H; exact (Hkeep _ H (S1 _))|].
  destruct (isDirectory st).
  - destruct (not_false (opt_format opts) && truthy_str (opt_index opts)).
    + cbv zeta. destruct (stat w _) as [e|st'].
      * cbn. rewrite <- app_assoc. intros H; exact (Hkeep _ H (S2 _ _)).
      * rewrite StageFacts.respond_run. cbn. rewrite <- app_assoc.
        intros H; exact (Hkeep _ H (S2 _ _)).
    + cbn; intros H; exact (Hkeep _ H (S1 _)).
  - rewrite StageFacts.respond_run. cbn; intros H; exact (Hkeep _ H (S1 _)).
Qed.

Lemma dotted_basename_skips_extensions_witness :
  extension_fallback Demo.world (Some [JsString "html"]) "/srv/www/app.v2"
    {| ctx := Demo.plain; trace := [] |}
  = (Normal "/srv/www/app.v2", {| ctx := Demo.plain; trace := [] |})
  /\ ("/srv/www/app.js.br" = "/srv/www/app.js" +:+ ".br"
      \/ "/srv/www/app.js.br" = "/srv/www/app.js" +:+ ".gz").
Proof.
  split.
  - apply (proj1 (dotted_basename_skips_extensions Demo.world)). reflexivity.
  - apply (proj2 (dotted_basename_skips_extensions Demo.world) Demo.eager "/app.js"
             (Demo.with_extensions [JsString "br"; JsString "html"] Demo.site)
             "/srv/www/app.js" "/srv/www/app.js.br").
    + reflexivity.
    + reflexivity.
    + vm_compute. auto.
Defined.

(* --------------------------------------------------------------------- *)
(** *** The Cache-Control header *)

(** C6, as the code has it.  A Cache-Control header that is set to a
    non-empty value before the request, and that the hook (if any) leaves
    alone, has the same value after a resolved request. *)
Theorem cache_control_kept (w : World) (c : Context) (path : string)
    (opts : Options) (fp : string) (c' : Context) (tr : list FsCall) (v : string) :
  resolve w c path opts = (Resolved fp, c', tr) ->
  headers c !! "cache-control" = Some v ->
  v <> "" ->
  keeps_cache_control (opt_setHeaders opts) ->
  headers c' !! "cache-control" = Some v.
Proof.
  intros Hres Hv Hne Hkeep.
  rewrite (resolved_cache _ _ _ _ _ _ _ Hres Hkeep).
  unfold get. change (Str.lower "Cache-Control") with "cache-control".
  rewrite Hv. destruct v; [contradiction | reflexivity].
Qed.

Lemma cache_control_kept_witness :
  headers (snd (fst (resolve Demo.world (Demo.preset "no-cache") "/page.htm" Demo.site)))
    !! "cache-control" = Some "no-cache".
Proof.
  apply (cache_control_kept Demo.world (Demo.preset "no-cache") "/page.htm" Demo.site
           "/srv/www/page.htm"
           (snd (fst (resolve Demo.world (Demo.preset "no-cache") "/page.htm" Demo.site)))
           (snd (resolve Demo.world (Demo.preset "no-cache") "/page.htm" Demo.site))).
  - vm_compute. reflexivity.
  - vm_compute. reflexivity.
  - discriminate.
  - exact I.
Defined.

(** C6 as stated fails.  A header that is present with the empty value
    counts as absent and is overwritten; and a header the hook rewrites
    does not keep the value it had before the request. *)
Lemma cache_control_kept_counterexample :
  (headers (Demo.preset "") !! "cache-control" = Some ""
   /\ fst (fst (resolve Demo.world (Demo.preset "") "/page.htm" Demo.site))
      = Resolved "/srv/www/page.htm"
   /\ headers (snd (fst (resolve Demo.world (Demo.preset "") "/page.htm" Demo.site)))
        !! "cache-control" = Some "max-age=0")
  /\ (headers (Demo.preset "public") !! "cache-control" = Some "public"
      /\ fst (fst (resolve Demo.world (Demo.preset "public") "/page.htm"
                     (Demo.with_hook Demo.no_store_hook Demo.site)))
         = Resolved "/srv/www/page.htm"
      /\ headers (snd (fst (resolve Demo.world (Demo.preset "public") "/page.htm"
                              (Demo.with_hook Demo.no_store_hook Demo.site))))
           !! "cache-control" = Some "no-store").
Proof. vm_compute. repeat split. Qed.

(** C7, as the code has it.  When Cache-Control is absent (or empty)
    before the request and the hook (if any) leaves it alone, a resolved
    request sets it to ["max-age="] followed by the lifetime divided by
    1000, truncated toward zero and reduced to a signed 32-bit integer,
    with [",immutable"] appended exactly when [immutable] is set.  For a
    lifetime from 0 up to 2147483647999 that number is
    [floor(maxAge/1000)]. *)
Theorem cache_control_computed (w : World) (c : Context) (path : string)
    (opts : Options) (fp : string) (c' : Context) (tr : list FsCall) :
  resolve w c path opts = (Resolved fp, c', tr) ->
  get "Cache-Control" c = "" ->
  keeps_cache_control (opt_setHeaders opts) ->
  (- 9007199254740992 < maxage_of opts < 9007199254740992)%Z ->
  let seconds := to_int32 (Z.quot (maxage_of opts) 1000) in
  headers c' !! "cache-control"
  = Some (if or_false (opt_immutable opts)
          then ("max-age=" +:+ number_to_string seconds) +:+ ",immutable"
          else "max-age=" +:+ number_to_string seconds)
  /\ ((0 <= maxage_of opts < 2147483648000)%Z ->
      seconds = (maxage_of opts / 1000)%Z).
Proof.
  intros Hres Habsent Hkeep _ seconds. split.
  - rewrite (resolved_cache _ _ _ _ _ _ _ Hres Hkeep), Habsent.
    cbn [Str.is_empty]. rewrite cache_control_value. reflexivity.
  - apply max_age_seconds_floor.
Qed.

Lemma cache_control_computed_witness :
  headers (snd (fst (resolve Demo.world Demo.plain "/page.htm"
                       (Demo.with_maxage None (Some 86400999%Z) Demo.site))))
    !! "cache-control" = Some "max-age=86400"
  /\ ((0 <= 86400999 < 2147483648000)%Z ->
      to_int32 (Z.quot 86400999 1000) = (86400999 / 1000)%Z).
Proof.
  apply (cache_control_computed Demo.world Demo.plain "/page.htm"
           (Demo.with_maxage None (Some 86400999%Z) Demo.site)
           "/srv/www/page.htm"
           (snd (fst (resolve Demo.world Demo.plain "/page.htm"
                        (Demo.with_maxage None (Some 86400999%Z) Demo.site))))
           (snd (resolve Demo.world Demo.plain "/page.htm"
                   (Demo.with_maxage None (Some 86400999%Z) Demo.site)))).
  - vm_compute. reflexivity.
  - reflexivity.
  - exact I.
  - vm_compute. split; reflexivity.
Defined.

(** C7 as stated fails for a negative lifetime and for a large one: with
    [maxAge = -1] the header is ["max-age=0"] (the floor is -1), and with
    [maxAge = 2147483648000] it is ["max-age=-2147483648"] (the floor is
    2147483648). *)
Lemma cache_control_floor_counterexample :
  (headers (snd (fst (resolve Demo.world Demo.plain "/page.htm"
                        (Demo.with_maxage None (Some (-1)%Z) Demo.site))))
     !! "cache-control" = Some "max-age=0"
   /\ "max-age=" +:+ number_to_string (-1 / 1000) = "max-age=-1")
  /\ (headers (snd (fst (resolve Demo.world Demo.plain "/page.htm"
                           (Demo.with_maxage None (Some 2147483648000%Z) Demo.site))))
        !! "cache-control" = Some "max-age=-2147483648"
      /\ "max-age=" +:+ number_to_string (2147483648000 / 1000) = "max-age=2147483648").
Proof. vm_compute. repeat split. Qed.

(** C9, as the code has it.  The lifetime is [opts.maxage || opts.maxAge
    || 0]: [maxage] when it is supplied and not 0; otherwise [maxAge]
    when it is supplied; and 0 when neither is supplied or both are 0. *)
Theorem lifetime_option (opts : Options) :
  (forall a : Z, opt_maxage opts = Some a -> a <> 0%Z -> maxage_of opts = a)
  /\ (forall b : Z,
        truthy_num (opt_maxage opts) = false ->
        opt_maxAge opts = Some b -> maxage_of opts = b)
  /\ (truthy_num (opt_maxage opts) = false ->
      truthy_num (opt_maxAge opts) = false -> maxage_of opts = 0%Z).
Proof.
  unfold maxage_of. split_and!.
  - intros a Ha Hne. rewrite Ha. cbn.
    destruct (Z.eqb_spec a 0); [contradiction | reflexivity].
  - intros b Ha Hb. rewrite Ha, Hb. cbn.
    destruct (Z.eqb_spec b 0); [symmetry; assumption | reflexivity].
  - intros Ha Hb. rewrite Ha, Hb. reflexivity.
Qed.

Lemma lifetime_option_witness :
  maxage_of (Demo.with_maxage (Some 1000%Z) (Some 5000%Z) Demo.site) = 1000%Z
  /\ maxage_of (Demo.with_maxage None (Some 5000%Z) Demo.site) = 5000%Z
  /\ maxage_of (Demo.with_maxage (Some 0%Z) None Demo.site) = 0%Z.
Proof.
  split_and!.
  - apply (proj1 (lifetime_option
                    (Demo.with_maxage (Some 1000%Z) (Some 5000%Z) Demo.site)) 1000%Z);
      [reflexivity | discriminate].
  - apply (proj1 (proj2 (lifetime_option
                           (Demo.with_maxage None (Some 5000%Z) Demo.site))) 5000%Z);
      reflexivity.
  - apply (proj2 (proj2 (lifetime_option
                           (Demo.with_maxage (Some 0%Z) None Demo.site))));
      reflexivity.
Defined.

(** C9 as stated fails: with both keys supplied, [maxage: 0] and
    [maxAge: 5000], the lifetime is 5000 and the header ["max-age=5"];
    [maxage] does not take precedence. *)
Lemma lifetime_precedence_counterexample :
  opt_maxage (Demo.with_maxage (Some 0%Z) (Some 5000%Z) Demo.site) = Some 0%Z
  /\ opt_maxAge (Demo.with_maxage (Some 0%Z) (Some 5000%Z) Demo.site) = Some 5000%Z
  /\ maxage_of (Demo.with_maxage (Some 0%Z) (Some 5000%Z) Demo.site) = 5000%Z
  /\ headers (snd (fst (resolve Demo.world Demo.plain "/page.htm"
                          (Demo.with_maxage (Some 0%Z) (Some 5000%Z) Demo.site))))
       !! "cache-control" = Some "max-age=5".
Proof. vm_compute. repeat split. Qed.


(* --------------------------------------------------------------------- *)
(** *** Percent-encoded request paths *)




(* ===================================================================== *)
(** ** Further properties of [send] *)
(* ===================================================================== *)

Module RunFacts.

Section WithWorld.

Variable w : World.

(** Negotiation as a function of what the client accepts and of which
    siblings exist. *)
Lemma negotiate_unfold (brotli gzip : bool) (path : string) (s : State) :
  negotiate w brotli gzip path s =
    let tb := bool_decide (acceptsEncodings (ctx s) ["br"; "identity"] = Some "br")
              && brotli in
    let tg := bool_decide (acceptsEncodings (ctx s) ["gzip"; "identity"] = Some "gzip")
              && gzip in
    let s1 := if tb then push (Access (path +:+ ".br")) s else s in
    if tb && bool_decide (access w (path +:+ ".br") = None)
    then (Normal (path +:+ ".br", ".br"), on_ctx (encoded_ctx "br") s1)
    else
      let s2 := if tg then push (Access (path +:+ ".gz")) s1 else s1 in
      if tg && bool_decide (access w (path +:+ ".gz") = None)
      then (Normal (path +:+ ".gz", ".gz"), on_ctx (encoded_ctx "gzip") s2)
      else (Normal (path, ""), s2).
Proof.
  unfold negotiate, bind, read. cbv zeta.
  destruct (bool_decide (acceptsEncodings (ctx s) ["br"; "identity"] = Some "br")
            && brotli).
  - rewrite exists_run. cbn [andb].
    destruct (bool_decide (access w (path +:+ ".br") = None)); [reflexivity|].
    cbn [push ctx].
    destruct (bool_decide (acceptsEncodings (ctx s) ["gzip"; "identity"] = Some "gzip")
              && gzip).
    + rewrite exists_run. cbn [andb].
      destruct (bool_decide (access w (path +:+ ".gz") = None)); reflexivity.
    + reflexivity.
  - unfold ret at 1. cbv beta iota. cbn [andb].
    destruct (bool_decide (acceptsEncodings (ctx s) ["gzip"; "identity"] = Some "gzip")
              && gzip).
    + rewrite exists_run. cbn [andb].
      destruct (bool_decide (access w (path +:+ ".gz") = None)); reflexivity.
    + reflexivity.
Qed.

(** The three ways negotiation ends: nothing chosen, brotli chosen, gzip
    chosen; at most one probe per enabled encoding, brotli first. *)
Lemma negotiate_shape (brotli gzip : bool) (path : string) (s : State) :
  exists p1 ext c1 neg,
    negotiate w brotli gzip path s
    = (Normal (p1, ext), {| ctx := c1; trace := trace s ++ neg |})
    /\ (neg = [] \/ neg = [Access (path +:+ ".br")] \/ neg = [Access (path +:+ ".gz")]
        \/ neg = [Access (path +:+ ".br"); Access (path +:+ ".gz")])
    /\ length neg <= (if brotli then 1 else 0) + (if gzip then 1 else 0)
    /\ ((p1 = path /\ ext = "" /\ c1 = ctx s)
        \/ (p1 = path +:+ ".br" /\ ext = ".br" /\ c1 = encoded_ctx "br" (ctx s)
            /\ access w (path +:+ ".br") = None
            /\ neg = [Access (path +:+ ".br")])
        \/ (p1 = path +:+ ".gz" /\ ext = ".gz" /\ c1 = encoded_ctx "gzip" (ctx s)
            /\ access w (path +:+ ".gz") = None
            /\ last neg = Some (Access (path +:+ ".gz")))).
Proof.
  rewrite negotiate_unfold. cbv zeta.
  destruct (bool_decide (acceptsEncodings (ctx s) ["br"; "identity"] = Some "br"));
    destruct brotli; cbn [andb];
    (destruct (bool_decide (access w (path +:+ ".br") = None)) eqn:Ebr;
     [apply bool_decide_eq_true_1 in Ebr|]);
    destruct (bool_decide (acceptsEncodings (ctx s) ["gzip"; "identity"] = Some "gzip"));
    destruct gzip; cbn [andb];
    (destruct (bool_decide (access w (path +:+ ".gz") = None)) eqn:Egz;
     [apply bool_decide_eq_true_1 in Egz|]);
    unfold push, on_ctx; cbn [ctx trace]; rewrite <- ?app_assoc; cbn [app].
  all: first
    [ eexists _, _, _, [_; _]; split; [reflexivity|]
    | eexists _, _, _, [_]; split; [reflexivity|]
    | exists path, "", (ctx s), []; split; [rewrite app_nil_r; destruct s; reflexivity|] ].
  all: split; [auto 6|]; split; [cbn; lia|].
  all: first [ left; split_and!; reflexivity
             | right; left; split_and!; (reflexivity || assumption)
             | right; right; split_and!; (reflexivity || assumption) ].
Qed.

(** The extension loop: the candidates it probed, in order, and how it
    ended: nothing found, the last candidate probed exists, or an entry
    that is not a string was met. *)
Lemma probe_shape (p : string) (list : list JsValue) (s : State) :
  exists r cands,
    probe w p list s
    = (r, {| ctx := ctx s;
             trace := trace s ++ map (fun e => Access (p +:+ e)) cands |})
    /\ length cands <= length list
    /\ (r = Normal p
        \/ (exists e, r = Normal (p +:+ e) /\ access w (p +:+ e) = None
                      /\ last cands = Some e)
        \/ r = Threw extensions_error).
Proof.
  revert s. induction list as [|v rest IH]; intros s.
  - exists (Normal p), []. cbn. rewrite app_nil_r. destruct s. auto.
  - assert (Hthrow : exists r cands,
               throw extensions_error s
               = (r, {| ctx := ctx s;
                        trace := trace s ++ map (fun e => Access (p +:+ e)) cands |})
               /\ length cands <= length (v :: rest)
               /\ (r = Normal p
                   \/ (exists e, r = Normal (p +:+ e) /\ access w (p +:+ e) = None
                                 /\ last cands = Some e)
                   \/ r = Threw extensions_error)).
    { exists (Threw extensions_error), []. cbn. rewrite app_nil_r. destruct s.
      split_and!; [reflexivity | lia | auto]. }
    destruct v; try exact Hthrow.
    cbn [probe]. cbv zeta. unfold bind. rewrite exists_run.
    destruct (bool_decide (access w (p +:+ with_dot s0) = None)) eqn:E.
    + apply bool_decide_eq_true_1 in E.
      exists (Normal (p +:+ with_dot s0)), [with_dot s0].
      split_and!; [reflexivity | cbn; lia |].
      right; left. exists (with_dot s0). auto.
    + destruct (IH (push (Access (p +:+ with_dot s0)) s))
        as (r & cands & Hrun & Hlen & Hr).
      exists r, (with_dot s0 :: cands). rewrite Hrun.
      split_and!.
      * cbn [push ctx trace map]. rewrite <- app_assoc. reflexivity.
      * cbn. lia.
      * destruct Hr as [Hr|[(e & Hr & He & Hl)|Hr]]; auto.
        right; left. exists e. split_and!; auto.
        destruct cands as [|x xs]; [discriminate|].
        rewrite last_cons_cons. exact Hl.
Qed.

Lemma extension_shape (exts : option (list JsValue)) (p : string) (s : State) :
  exists r cands,
    extension_fallback w exts p s
    = (r, {| ctx := ctx s;
             trace := trace s ++ map (fun e => Access (p +:+ e)) cands |})
    /\ length cands <= length (default [] exts)
    /\ (r = Normal p
        \/ (exists e, r = Normal (p +:+ e) /\ access w (p +:+ e) = None
                      /\ last cands = Some e)
        \/ r = Threw extensions_error).
Proof.
  assert (Hsame : exists r cands,
             ret p s
             = (r, {| ctx := ctx s;
                      trace := trace s ++ map (fun e => Access (p +:+ e)) cands |})
             /\ length cands <= length (default [] exts)
             /\ (r = Normal p
                 \/ (exists e, r = Normal (p +:+ e) /\ access w (p +:+ e) = None
                               /\ last cands = Some e)
                 \/ r = Threw extensions_error)).
  { exists (Normal p), []. cbn [map length]. rewrite app_nil_r. destruct s.
    split_and!; [reflexivity | lia | auto]. }
  unfold extension_fallback. destruct exts as [list|]; [|exact Hsame].
  destruct (negb _); [apply probe_shape | exact Hsame].
Qed.

(** [serve] is negotiation, then extension fallback, then [finish]. *)
Lemma serve_run (opts : Options) (rp : string) (c : Context) :
  exists p1 ext c1 neg r2 cands,
    (neg = [] \/ neg = [Access (rp +:+ ".br")] \/ neg = [Access (rp +:+ ".gz")]
     \/ neg = [Access (rp +:+ ".br"); Access (rp +:+ ".gz")])
    /\ length neg <= (if not_false (opt_brotli opts) then 1 else 0)
                     + (if not_false (opt_gzip opts) then 1 else 0)
    /\ ((p1 = rp /\ ext = "" /\ c1 = c)
        \/ (p1 = rp +:+ ".br" /\ ext = ".br" /\ c1 = encoded_ctx "br" c
            /\ access w (rp +:+ ".br") = None
            /\ neg = [Access (rp +:+ ".br")])
        \/ (p1 = rp +:+ ".gz" /\ ext = ".gz" /\ c1 = encoded_ctx "gzip" c
            /\ access w (rp +:+ ".gz") = None
            /\ last neg = Some (Access (rp +:+ ".gz"))))
    /\ length cands <= length (default [] (opt_extensions opts))
    /\ (r2 = Normal p1
        \/ (exists e, r2 = Normal (p1 +:+ e) /\ access w (p1 +:+ e) = None
                      /\ last cands = Some e)
        \/ r2 = Threw extensions_error)
    /\ serve w opts rp {| ctx := c; trace := [] |}
       = finish w opts ext r2
           {| ctx := c1;
              trace := neg ++ map (fun e => Access (p1 +:+ e)) cands |}.
Proof.
  destruct (negotiate_shape (not_false (opt_brotli opts)) (not_false (opt_gzip opts))
              rp {| ctx := c; trace := [] |})
    as (p1 & ext & c1 & neg & Hneg & Hshape & Hlen & Hcase).
  cbn [ctx trace app] in Hneg, Hcase.
  destruct (extension_shape (opt_extensions opts) p1 {| ctx := c1; trace := neg |})
    as (r2 & cands & Hext & Hclen & Hr2).
  cbn [ctx trace] in Hext.
  exists p1, ext, c1, neg, r2, cands. split_and!; try assumption.
  unfold serve, bind. rewrite Hneg, Hext. unfold finish.
  destruct r2 as [p2| |e]; [|reflexivity..].
  rewrite stat_stage_run.
  destruct (stat w p2) as [e|st]; [reflexivity|].
  destruct (isDirectory st).
  - destruct (not_false (opt_format opts) && truthy_str (opt_index opts));
      [|reflexivity].
    cbv zeta. destruct (stat w _) as [e|st']; [reflexivity|].
    apply respond_run.
  - apply respond_run.
Qed.

End WithWorld.

(** Every request ends in one of three ways: it fails before the hidden
    check, with no effect; it is refused as hidden, with no effect; or it
    runs [serve] on the candidate path. *)
Lemma resolve_cases (w : World) (c : Context) (path : string) (opts : Options) :
  (candidate w path opts = None
   /\ exists e, resolve w c path opts = (Failed e, c, []))
  \/ (exists rp,
        candidate w path opts = Some rp
        /\ negb (or_false (opt_hidden opts)) && isHidden (root_of w opts) rp = true
        /\ resolve w c path opts = (NotApplicable, c, []))
  \/ (exists rp,
        candidate w path opts = Some rp
        /\ negb (or_false (opt_hidden opts)) && isHidden (root_of w opts) rp = false
        /\ resolve w c path opts = complete (serve w opts rp) c).
Proof.
  unfold resolve. destruct (candidate w path opts) as [rp|] eqn:Hc.
  - rewrite (send_at_candidate _ _ _ _ Hc).
    destruct (negb _ && isHidden _ rp) eqn:Hh; [right; left | right; right];
      exists rp; auto.
  - left. split; [reflexivity|]. unfold candidate in Hc.
    destruct (join_argument path opts) as [j|] eqn:Ej.
    + destruct (ResolvePath.resolvePath _ _ j) as [e|rp] eqn:Er; [|discriminate].
      exists e. unfold complete. rewrite (send_at_join _ _ _ _ Ej).
      unfold bind. rewrite Er. reflexivity.
    + destruct (send_before_join w path opts {| ctx := c; trace := [] |} Ej)
        as [e He].
      exists e. unfold complete. rewrite He. reflexivity.
Qed.

End RunFacts.

Import RunFacts.

Module StrFacts.

Lemma append_assoc (a b c : string) : (a +:+ b) +:+ c = a +:+ (b +:+ c).
Proof.
  induction a as [|x a IH]; [reflexivity|].
  change (String x ((a +:+ b) +:+ c) = String x (a +:+ (b +:+ c))).
  rewrite IH. reflexivity.
Qed.

Lemma append_empty_r (a : string) : a +:+ "" = a.
Proof.
  induction a as [|x a IH]; [reflexivity|].
  change (String x (a +:+ "") = String x a). rewrite IH. reflexivity.
Qed.

End StrFacts.

Import StrFacts.

(* --------------------------------------------------------------------- *)
(** *** The file system calls of a request *)

(** X1. The file system calls of a request are existence checks followed
    by stat calls: at most one existence check per enabled encoding and
    per entry of [extensions], then no stat, one stat, or the stat of a
    directory followed by the stat of its index. *)
Theorem io_is_bounded (w : World) (c : Context) (path : string) (opts : Options) :
  exists probes stats,
    snd (resolve w c path opts) = probes ++ stats
    /\ Forall is_access probes
    /\ length probes <= probe_budget opts
    /\ (stats = []
        \/ (exists p, stats = [Stat p])
        \/ (exists p, stats = [Stat p; Stat (p +:+ "/" +:+ str_of (opt_index opts))])).
Proof.
  destruct (resolve_cases w c path opts)
    as [[_ [e ->]]|[(rp & _ & _ & ->)|(rp & _ & _ & ->)]].
  1,2: exists [], []; split_and!; [reflexivity | constructor | cbn; lia | auto].
  destruct (serve_run w opts rp c)
    as (p1 & ext & c1 & neg & r2 & cands & Hneg & Hnlen & _ & Hclen & _ & Hserve).
  unfold complete. rewrite Hserve.
  set (probes := neg ++ map (fun e => Access (p1 +:+ e)) cands).
  assert (Hacc : Forall is_access probes).
  { apply Forall_app. split.
    - destruct Hneg as [->|[->|[->| ->]]]; repeat constructor; eexists; reflexivity.
    - apply List.Forall_forall. intros x Hx. apply in_map_iff in Hx as (e & <- & _).
      eexists; reflexivity. }
  assert (Hlen : length probes <= probe_budget opts).
  { unfold probes, probe_budget. rewrite length_app, length_map. lia. }
  unfold finish. destruct r2 as [p2| |e].
  2,3: exists probes, []; cbn; rewrite app_nil_r; auto.
  destruct (stat w p2) as [e|st].
  { exists probes, [Stat p2]. cbn. split_and!; eauto. }
  destruct (isDirectory st).
  - destruct (not_false (opt_format opts) && truthy_str (opt_index opts)).
    + cbv zeta. destruct (stat w _) as [e|st'];
        exists probes, [Stat p2; Stat (p2 +:+ "/" +:+ str_of (opt_index opts))];
        cbn; rewrite <- app_assoc; split_and!; eauto.
    + exists probes, [Stat p2]. cbn. split_and!; eauto.
  - exists probes, [Stat p2]. cbn. split_and!; eauto.
Qed.

(** X2. Every file system call of a request is made on the candidate
    path or on the candidate path followed by a suffix: nothing else is
    ever probed or stat-ed. *)
Theorem calls_extend_candidate (w : World) (c : Context) (path : string)
    (opts : Options) (call : FsCall) :
  In call (snd (resolve w c path opts)) ->
  exists rp suffix,
    candidate w path opts = Some rp /\ call_path call = rp +:+ suffix.
Proof.
  destruct (resolve_cases w c path opts)
    as [[_ [e ->]]|[(rp & _ & _ & ->)|(rp & Hcand & _ & ->)]]; [intros []..|].
  destruct (serve_run w opts rp c)
    as (p1 & ext & c1 & neg & r2 & cands & Hneg & _ & Hp1 & _ & Hr2 & Hserve).
  unfold complete. rewrite Hserve. intros Hin. exists rp.
  assert (Hx1 : exists x1, p1 = rp +:+ x1).
  { destruct Hp1 as [(-> & _)|[(-> & _)|(-> & _)]]; eauto.
    exists "". symmetry. apply append_empty_r. }
  destruct Hx1 as [x1 Hx1]. subst p1.
  assert (Hprobes : In call (neg ++ map (fun e => Access ((rp +:+ x1) +:+ e)) cands) ->
                    exists suffix, call_path call = rp +:+ suffix).
  { intros H. apply in_app_or in H as [H|H].
    - destruct Hneg as [->|[->|[->| ->]]]; cbn in H;
        repeat (destruct H as [<-|H]; [cbn; eauto|]); destruct H.
    - apply in_map_iff in H as (e & <- & _). cbn. rewrite append_assoc. eauto. }
  assert (Hstat : forall p2, r2 = Normal p2 -> exists x2, p2 = rp +:+ x2).
  { intros p2 ->. destruct Hr2 as [[= ->]|[(e & [= ->] & _)|[=]]]; eauto.
    rewrite append_assoc. eauto. }
  cut (exists suffix, call_path call = rp +:+ suffix);
    [intros [sfx Hs]; exists sfx; auto|].
  unfold finish in Hin. destruct r2 as [p2| |e]; [|exact (Hprobes Hin)..].
  destruct (Hstat p2 eq_refl) as [x2 ->].
  assert (Hone : forall l, In call (l ++ [Stat (rp +:+ x2)]) ->
                   (In call l -> exists suffix, call_path call = rp +:+ suffix) ->
                   exists suffix, call_path call = rp +:+ suffix).
  { intros l H Hl. apply in_app_or in H as [H|[<-|[]]]; [auto | cbn; eauto]. }
  assert (Htwo : forall l, In call ((l ++ [Stat (rp +:+ x2)])
                     ++ [Stat ((rp +:+ x2) +:+ "/" +:+ str_of (opt_index opts))]) ->
                   (In call l -> exists suffix, call_path call = rp +:+ suffix) ->
                   exists suffix, call_path call = rp +:+ suffix).
  { intros l H Hl. apply in_app_or in H as [H|[<-|[]]]; [exact (Hone l H Hl)|].
    cbn. rewrite append_assoc. eauto. }
  destruct (stat w (rp +:+ x2)) as [e|st]; [exact (Hone _ Hin Hprobes)|].
  destruct (isDirectory st).
  - destruct (not_false (opt_format opts) && truthy_str (opt_index opts)).
    + cbv zeta in Hin. destruct (stat w _) as [e|st']; exact (Htwo _ Hin Hprobes).
    + exact (Hone _ Hin Hprobes).
  - exact (Hone _ Hin Hprobes).
Qed.

Lemma calls_extend_candidate_witness :
  exists rp suffix,
    candidate Demo.world "/page" (Demo.with_extensions [JsString "htm"] Demo.site)
    = Some rp
    /\ call_path (Access "/srv/www/page.htm") = rp +:+ suffix.
Proof.
  apply (calls_extend_candidate Demo.world Demo.plain "/page"
           (Demo.with_extensions [JsString "htm"] Demo.site)
           (Access "/srv/www/page.htm")).
  vm_compute. auto.
Defined.

Module HeaderFacts.

(** Settles [Str.lower "Name" <> f] from what is known of [f]. *)
Local Ltac other_name :=
  let E := fresh "E" in
  intros E; vm_compute in E; subst;
  first [ congruence | tauto | intuition congruence ].

Lemma set_lookup_ne (field val f : string) (c : Context) :
  Str.lower field <> f -> headers (set field val c) !! f = headers c !! f.
Proof. intros H. unfold set, with_headers. cbn [headers]. apply lookup_insert_ne, H. Qed.

Lemma set_lookup_eq (field val : string) (c : Context) :
  headers (set field val c) !! Str.lower field = Some val.
Proof. unfold set, with_headers. cbn [headers]. apply lookup_insert_eq. Qed.

Lemma remove_lookup_ne (field f : string) (c : Context) :
  Str.lower field <> f -> headers (removeHeader field c) !! f = headers c !! f.
Proof.
  intros H. unfold removeHeader, with_headers. cbn [headers].
  apply lookup_delete_ne, H.
Qed.

Lemma set_type_lookup_ne (t f : string) (c : Context) :
  f <> "content-type" -> headers (set_type t c) !! f = headers c !! f.
Proof.
  intros H. unfold set_type.
  destruct (mime c t) as [ct|]; [destruct (Str.is_empty ct)|];
    first [apply remove_lookup_ne | apply set_lookup_ne]; other_name.
Qed.

Lemma default_type_lookup_ne (t f : string) (c : Context) :
  f <> "content-type" -> headers (default_type t c) !! f = headers c !! f.
Proof.
  intros H. unfold default_type.
  destruct (Str.is_empty _); [apply set_type_lookup_ne, H | reflexivity].
Qed.

Lemma default_header_lookup_ne (field val f : string) (c : Context) :
  Str.lower field <> f -> headers (default_header field val c) !! f = headers c !! f.
Proof.
  intros H. unfold default_header.
  destruct (Str.is_empty _); [apply set_lookup_ne, H | reflexivity].
Qed.

(** A header that is absent or empty gets the default, another one stays. *)
Lemma default_header_lookup_eq (field val : string) (c : Context) :
  headers (default_header field val c) !! Str.lower field
  = if Str.is_empty (get field c) then Some val else headers c !! Str.lower field.
Proof.
  unfold default_header.
  destruct (Str.is_empty _); [apply set_lookup_eq | reflexivity].
Qed.

Lemma encoded_ctx_lookup_ne (enc f : string) (c : Context) :
  f <> "content-encoding" -> f <> "content-length" ->
  headers (encoded_ctx enc c) !! f = headers c !! f.
Proof.
  intros H1 H2. unfold encoded_ctx.
  rewrite remove_lookup_ne by other_name.
  apply set_lookup_ne. other_name.
Qed.

(** Assigning the body touches no header but Content-Length and
    Content-Type. *)
Lemma set_body_lookup_ne (p f : string) (c : Context) :
  f <> "content-length" -> f <> "content-type" ->
  headers (set_body p c) !! f = headers c !! f.
Proof.
  intros H1 H2. unfold set_body. cbv zeta. cbn [headers].
  assert (H : headers (match body c with
                       | Some _ => removeHeader "Content-Length" c
                       | None => c
                       end) !! f = headers c !! f).
  { destruct (body c); [|reflexivity]. apply remove_lookup_ne. other_name. }
  destruct (negb (has "Content-Type" c)); [rewrite set_type_lookup_ne by exact H2|];
    exact H.
Qed.

Lemma body_default_header (field val : string) (c : Context) :
  body (default_header field val c) = body c.
Proof. unfold default_header. destruct (Str.is_empty _); reflexivity. Qed.

Lemma body_set_type (t : string) (c : Context) : body (set_type t c) = body c.
Proof.
  unfold set_type. destruct (mime c t) as [ct|]; [destruct (Str.is_empty ct)|];
    reflexivity.
Qed.

Lemma body_default_type (t : string) (c : Context) :
  body (default_type t c) = body c.
Proof. unfold default_type. destruct (Str.is_empty _); [apply body_set_type | reflexivity]. Qed.

Lemma body_hooked (sh : SetHeaders) (p : string) (st : Stats) (c : Context) :
  body (hooked sh p st c) = body c.
Proof. destruct sh; reflexivity. Qed.

Lemma hooked_lookup (sh : SetHeaders) (p : string) (st : Stats) (c : Context)
    (f : string) :
  hook_keeps f sh -> headers (hooked sh p st c) !! f = headers c !! f.
Proof. destruct sh as [g|v]; cbn; auto. Qed.

Section Responded.

Variables (sh : SetHeaders) (m : Z) (imm : bool) (ext p : string) (st : Stats)
          (c : Context).

Lemma responded_body : body (responded sh m imm ext p st c) = Some p.
Proof. reflexivity. Qed.

(** Content-Length is the size of the file, whatever was there before,
    unless a body was assigned before: the body setter then removes the
    header. *)
Lemma responded_content_length :
  headers (responded sh m imm ext p st c) !! "content-length"
  = match body c with
    | Some _ => None
    | None => Some (number_to_string (size st))
    end.
Proof.
  unfold responded.
  set (c4 := default_type _ _).
  assert (Hb : body c4 = body c).
  { unfold c4. rewrite body_default_type, !body_default_header.
    cbn [set with_headers body]. apply body_hooked. }
  assert (Hl : headers c4 !! "content-length" = Some (number_to_string (size st))).
  { unfold c4. rewrite default_type_lookup_ne by discriminate.
    rewrite !default_header_lookup_ne by discriminate.
    exact (set_lookup_eq "Content-Length" _ _). }
  unfold set_body. cbv zeta. cbn [headers]. rewrite Hb.
  assert (Hrm : headers (removeHeader "Content-Length" c4) !! "content-length" = None).
  { unfold removeHeader, with_headers. cbn [headers]. apply lookup_delete_eq. }
  destruct (body c); destruct (negb (has "Content-Type" c4));
    rewrite ?set_type_lookup_ne by discriminate; assumption.
Qed.

Lemma responded_last_modified :
  headers (responded sh m imm ext p st c) !! "last-modified"
  = if Str.is_empty (get "Last-Modified" (hooked sh p st c))
    then Some (mtime st)
    else headers (hooked sh p st c) !! "last-modified".
Proof.
  unfold responded. rewrite set_body_lookup_ne by discriminate.
  rewrite default_type_lookup_ne by discriminate.
  rewrite default_header_lookup_ne by discriminate.
  rewrite (default_header_lookup_eq "Last-Modified").
  unfold get. change (Str.lower "Last-Modified") with "last-modified".
  rewrite !set_lookup_ne by discriminate. reflexivity.
Qed.

Lemma responded_other (f : string) :
  ~ In f governed ->
  headers (responded sh m imm ext p st c) !! f = headers (hooked sh p st c) !! f.
Proof.
  intros Hf. unfold governed in Hf. cbn [In] in Hf.
  unfold responded. rewrite set_body_lookup_ne by (intuition congruence).
  rewrite default_type_lookup_ne by (intuition congruence).
  rewrite !default_header_lookup_ne by other_name.
  apply set_lookup_ne. other_name.
Qed.

End Responded.

End HeaderFacts.

Import HeaderFacts.

Module OutcomeFacts.

(** Reads the outcome, the context and the trace off a finished run. *)
Ltac close H :=
  cbn [outcome_of ctx trace push on_ctx] in H;
  let H1 := fresh in let H2 := fresh in let H3 := fresh in
  apply pair_equal_spec in H as [H1 H3];
  apply pair_equal_spec in H1 as [H1 H2];
  subst.

(** The context a request leaves, by outcome. *)
Lemma resolve_context (w : World) (c : Context) (path : string) (opts : Options)
    (out : Outcome) (c' : Context) (tr : list FsCall) :
  resolve w c path opts = (out, c', tr) ->
  exists c1 ext,
    negotiated w path opts c c1 ext
    /\ match out with
       | Resolved fp =>
           exists st,
             stat w fp = inr st
             /\ last tr = Some (Stat fp)
             /\ c' = responded (opt_setHeaders opts) (maxage_of opts)
                       (or_false (opt_immutable opts)) ext fp st c1
       | _ => c' = c1
       end.
Proof.
  destruct (resolve_cases w c path opts)
    as [[_ [e ->]]|[(rp & _ & _ & ->)|(rp & Hcand & _ & ->)]].
  1,2: intros [= <- <- <-]; exists c, ""; split; [left; auto | reflexivity].
  destruct (serve_run w opts rp c)
    as (p1 & ext & c1 & neg & r2 & cands & _ & _ & Hp1 & _ & _ & Hserve).
  unfold complete. rewrite Hserve. clear Hserve. intros Hres.
  exists c1, ext. split.
  { destruct Hp1 as [(_ & -> & ->)|[(_ & -> & -> & Ha & _)|(_ & -> & -> & Ha & _)]];
      [left | right; left | right; right]; eauto 6. }
  unfold finish in Hres.
  destruct r2 as [p2| |e]; [|close Hres; reflexivity..].
  destruct (stat w p2) as [e|st] eqn:Es; [close Hres; reflexivity|].
  destruct (isDirectory st).
  - destruct (not_false (opt_format opts) && truthy_str (opt_index opts));
      [|close Hres; reflexivity].
    cbv zeta in Hres.
    destruct (stat w (p2 +:+ "/" +:+ str_of (opt_index opts))) as [e|st'] eqn:Es';
      [close Hres; reflexivity|].
    close Hres. exists st'.
    split_and!; [exact Es' | apply last_snoc | reflexivity].
  - close Hres. exists st.
    split_and!; [exact Es | apply last_snoc | reflexivity].
Qed.

End OutcomeFacts.

Import OutcomeFacts.

Lemma resolve_eta (w : World) (c : Context) (path : string) (opts : Options) :
  resolve w c path opts
  = (fst (fst (resolve w c path opts)), snd (fst (resolve w c path opts)),
     snd (resolve w c path opts)).
Proof. destruct (resolve w c path opts) as [[? ?] ?]. reflexivity. Qed.

(* --------------------------------------------------------------------- *)
(** *** What a resolved request leaves *)

(** X3. A resolved request returns a path whose stat was the last file
    system call and succeeded, and the body is the stream on that path.
    When no body was assigned before the request, Content-Length is the
    size that stat reported, whatever the caller or the hook had set;
    when one was, the response is left without Content-Length: the body
    setter removes the header as the stream overwrites the body. *)
Theorem resolved_file (w : World) (c : Context) (path : string) (opts : Options)
    (fp : string) (c' : Context) (tr : list FsCall) :
  resolve w c path opts = (Resolved fp, c', tr) ->
  exists st,
    stat w fp = inr st
    /\ last tr = Some (Stat fp)
    /\ body c' = Some fp
    /\ headers c' !! "content-length"
       = match body c with
         | Some _ => None
         | None => Some (number_to_string (size st))
         end.
Proof.
  intros Hres.
  destruct (resolve_context _ _ _ _ _ _ _ Hres)
    as (c1 & ext & Hneg & st & Hst & Hlast & ->).
  exists st. split_and!; [exact Hst | exact Hlast | reflexivity |].
  rewrite responded_content_length.
  assert (body c1 = body c) as ->; [|reflexivity].
  destruct Hneg as [(-> & _)|[(-> & _)|(-> & _)]]; reflexivity.
Qed.

Lemma resolved_file_witness :
  exists st,
    stat Demo.world "/srv/www/app.js.br" = inr st
    /\ last (snd (resolve Demo.world (set "Content-Length" "7" Demo.eager)
                    "/app.js" Demo.site))
       = Some (Stat "/srv/www/app.js.br")
    /\ body (snd (fst (resolve Demo.world (set "Content-Length" "7" Demo.eager)
                         "/app.js" Demo.site)))
       = Some "/srv/www/app.js.br"
    /\ headers (snd (fst (resolve Demo.world (set "Content-Length" "7" Demo.eager)
                            "/app.js" Demo.site)))
         !! "content-length"
       = match body (set "Content-Length" "7" Demo.eager) with
         | Some _ => None
         | None => Some (number_to_string (size st))
         end.
Proof.
  apply (resolved_file Demo.world (set "Content-Length" "7" Demo.eager) "/app.js"
           Demo.site "/srv/www/app.js.br").
  vm_compute. reflexivity.
Defined.

(** Served over a body assigned before, [page.htm] goes out without
    Content-Length. *)
Example overwritten_body_drops_length :
  fst (fst (resolve Demo.world busy "/page.htm" Demo.site))
  = Resolved "/srv/www/page.htm"
  /\ headers (snd (fst (resolve Demo.world busy "/page.htm" Demo.site)))
       !! "content-length" = None.
Proof. vm_compute. split; reflexivity. Qed.

(** X4. A request that is not resolved leaves the body slot alone, and
    leaves the headers alone unless a precompressed sibling of the
    candidate exists and was chosen: then Content-Encoding stays set and
    Content-Length stays removed, although nothing is served. *)
Theorem unresolved_context (w : World) (c : Context) (path : string)
    (opts : Options) (out : Outcome) (c' : Context) (tr : list FsCall) :
  resolve w c path opts = (out, c', tr) ->
  (forall fp, out <> Resolved fp) ->
  body c' = body c
  /\ (c' = c
      \/ exists rp,
           candidate w path opts = Some rp
           /\ ((access w (rp +:+ ".br") = None /\ c' = encoded_ctx "br" c)
               \/ (access w (rp +:+ ".gz") = None /\ c' = encoded_ctx "gzip" c))).
Proof.
  intros Hres Hout.
  destruct (resolve_context _ _ _ _ _ _ _ Hres) as (c1 & ext & Hneg & Hc').
  assert (c' = c1) as ->.
  { destruct out as [fp| |e]; [exfalso; exact (Hout fp eq_refl) | exact Hc'..]. }
  destruct Hneg as [(-> & _)|[(-> & _ & rp & Hc & Ha)|(-> & _ & rp & Hc & Ha)]].
  - auto.
  - split; [reflexivity|]. right. exists rp. auto.
  - split; [reflexivity|]. right. exists rp. auto.
Qed.

Lemma unresolved_context_witness :
  body (encoded_ctx "br" Demo.eager) = body Demo.eager
  /\ (encoded_ctx "br" Demo.eager = Demo.eager
      \/ exists rp,
           candidate mirage "/nope" Demo.site = Some rp
           /\ ((access mirage (rp +:+ ".br") = None
                /\ encoded_ctx "br" Demo.eager = encoded_ctx "br" Demo.eager)
               \/ (access mirage (rp +:+ ".gz") = None
                   /\ encoded_ctx "br" Demo.eager = encoded_ctx "gzip" Demo.eager))).
Proof.
  apply (unresolved_context mirage Demo.eager "/nope" Demo.site
           (Failed (SystemError Demo.enoent (Some 404%Z)))
           (encoded_ctx "br" Demo.eager)
           [Access "/srv/www/nope.br"; Stat "/srv/www/nope.br"]).
  - vm_compute. reflexivity.
  - discriminate.
Defined.

(** The 404 of the example above goes out with Content-Encoding: br. *)
Example unresolved_keeps_encoding :
  fst (fst (resolve mirage Demo.eager "/nope" Demo.site))
  = Failed (SystemError Demo.enoent (Some 404%Z))
  /\ headers (snd (fst (resolve mirage Demo.eager "/nope" Demo.site)))
       !! "content-encoding" = Some "br".
Proof. vm_compute. split; reflexivity. Qed.

(** X5. Whatever the outcome, a request changes no header other than
    Content-Encoding, Content-Length, Last-Modified, Cache-Control and
    Content-Type, provided the hook (if any) does not. *)
Theorem other_headers_untouched (w : World) (c : Context) (path : string)
    (opts : Options) (field : string) :
  ~ In field governed ->
  hook_keeps field (opt_setHeaders opts) ->
  headers (snd (fst (resolve w c path opts))) !! field = headers c !! field.
Proof.
  intros Hf Hk.
  destruct (resolve_context _ _ _ _ _ _ _ (resolve_eta w c path opts))
    as (c1 & ext & Hneg & Hc').
  assert (H1 : headers c1 !! field = headers c !! field).
  { unfold governed in Hf. cbn [In] in Hf.
    destruct Hneg as [(-> & _)|[(-> & _)|(-> & _)]]; [reflexivity|..];
      apply encoded_ctx_lookup_ne; intuition congruence. }
  destruct (fst (fst (resolve w c path opts))) as [fp| |e].
  - destruct Hc' as (st & _ & _ & ->).
    rewrite responded_other by exact Hf.
    rewrite hooked_lookup by exact Hk. exact H1.
  - rewrite Hc'. exact H1.
  - rewrite Hc'. exact H1.
Qed.

Lemma other_headers_untouched_witness :
  headers (snd (fst (resolve Demo.world (set "X-Request-Id" "42" Demo.eager)
                       "/app.js" Demo.site))) !! "x-request-id"
  = headers (set "X-Request-Id" "42" Demo.eager) !! "x-request-id".
Proof.
  apply (other_headers_untouched Demo.world (set "X-Request-Id" "42" Demo.eager)
           "/app.js" Demo.site "x-request-id").
  - cbn. intuition discriminate.
  - exact I.
Defined.

(** X6. A resolved request sets Last-Modified to the modification time
    of the file served when the header is absent or empty, and leaves a
    non-empty one as it is, provided the hook (if any) does not touch
    it. *)
Theorem last_modified_default (w : World) (c : Context) (path : string)
    (opts : Options) (fp : string) (c' : Context) (tr : list FsCall) :
  resolve w c path opts = (Resolved fp, c', tr) ->
  hook_keeps "last-modified" (opt_setHeaders opts) ->
  exists st,
    stat w fp = inr st
    /\ headers c' !! "last-modified"
       = if Str.is_empty (get "Last-Modified" c) then Some (mtime st)
         else headers c !! "last-modified".
Proof.
  intros Hres Hk.
  destruct (resolve_context _ _ _ _ _ _ _ Hres)
    as (c1 & ext & Hneg & st & Hst & _ & ->).
  exists st. split; [exact Hst|].
  rewrite responded_last_modified.
  assert (H1 : headers (hooked (opt_setHeaders opts) fp st c1) !! "last-modified"
               = headers c !! "last-modified").
  { rewrite hooked_lookup by exact Hk.
    destruct Hneg as [(-> & _)|[(-> & _)|(-> & _)]]; [reflexivity|..];
      apply encoded_ctx_lookup_ne; discriminate. }
  unfold get. change (Str.lower "Last-Modified") with "last-modified".
  rewrite H1. reflexivity.
Qed.

Lemma last_modified_default_witness :
  exists st,
    stat Demo.world "/srv/www/page.htm" = inr st
    /\ headers (snd (fst (resolve Demo.world Demo.plain "/page.htm" Demo.site)))
         !! "last-modified"
       = if Str.is_empty (get "Last-Modified" Demo.plain) then Some (mtime st)
         else headers Demo.plain !! "last-modified".
Proof.
  apply (last_modified_default Demo.world Demo.plain "/page.htm" Demo.site
           "/srv/www/page.htm"
           (snd (fst (resolve Demo.world Demo.plain "/page.htm" Demo.site)))
           (snd (resolve Demo.world Demo.plain "/page.htm" Demo.site))).
  - vm_compute. reflexivity.
  - exact I.
Defined.

(* --------------------------------------------------------------------- *)
(** *** When nothing is served *)

(** X7. A request makes a file system call or changes the context only
    after its path passed the join and the hidden-file check: for a
    refused path no existence is ever probed. *)
Theorem nothing_before_checks (w : World) (c : Context) (path : string)
    (opts : Options) :
  snd (resolve w c path opts) <> [] \/ snd (fst (resolve w c path opts)) <> c ->
  exists rp,
    candidate w path opts = Some rp
    /\ (or_false (opt_hidden opts) = true \/ isHidden (root_of w opts) rp = false).
Proof.
  destruct (resolve_cases w c path opts)
    as [[_ [e ->]]|[(rp & _ & _ & ->)|(rp & Hcand & Hh & _)]].
  1,2: cbn; intros [H|H]; contradiction.
  intros _. exists rp. split; [exact Hcand|].
  destruct (or_false (opt_hidden opts)); [left; reflexivity | right; exact Hh].
Qed.

Lemma nothing_before_checks_witness :
  exists rp,
    candidate Demo.world "/page.htm" Demo.site = Some rp
    /\ (or_false (opt_hidden Demo.site) = true
        \/ isHidden (root_of Demo.world Demo.site) rp = false).
Proof.
  apply (nothing_before_checks Demo.world Demo.plain "/page.htm" Demo.site).
  left. vm_compute. discriminate.
Defined.

(** X8. A request returns nothing (neither a path nor an error) in
    exactly two situations: the candidate path is hidden and hidden files
    are not allowed; or the last file system call is the stat of a
    directory and no index can be substituted ([format] off or no
    [index]). *)
Theorem not_applicable_cases (w : World) (c : Context) (path : string)
    (opts : Options) :
  fst (fst (resolve w c path opts)) = NotApplicable
  <-> ((exists rp,
          candidate w path opts = Some rp
          /\ negb (or_false (opt_hidden opts)) && isHidden (root_of w opts) rp = true)
       \/ (exists p st,
             last (snd (resolve w c path opts)) = Some (Stat p)
             /\ stat w p = inr st
             /\ isDirectory st = true
             /\ not_false (opt_format opts) && truthy_str (opt_index opts) = false)).
Proof.
  destruct (resolve_cases w c path opts)
    as [[Hnone [e ->]]|[(rp & Hcand & Hh & ->)|(rp & Hcand & Hh & ->)]].
  - cbn. split; [discriminate|].
    intros [(rp & Hc & _)|(p & st & Hl & _)]; [congruence | discriminate].
  - cbn. split; [intros _; left; eauto | reflexivity].
  - destruct (serve_run w opts rp c)
      as (p1 & ext & c1 & neg & r2 & cands & Hneg & _ & _ & _ & Hr2 & Hserve).
    unfold complete. rewrite Hserve. clear Hserve.
    set (probes := neg ++ map (fun e => Access (p1 +:+ e)) cands).
    assert (Hacc : Forall is_access probes).
    { apply Forall_app. split.
      - destruct Hneg as [->|[->|[->| ->]]]; repeat constructor; eexists; reflexivity.
      - apply List.Forall_forall. intros x Hx. apply in_map_iff in Hx as (e & <- & _).
        eexists; reflexivity. }
    assert (Hnot : forall Q : Prop,
               (exists rp0, candidate w path opts = Some rp0
                  /\ negb (or_false (opt_hidden opts))
                     && isHidden (root_of w opts) rp0 = true) -> Q).
    { intros Q (rp0 & Hc0 & Hh0). congruence. }
    unfold finish. destruct r2 as [p2| |e].
    2: { exfalso. destruct Hr2 as [?|[(? & ? & _)|?]]; discriminate. }
    2: { cbn. split; [discriminate|].
         intros [H|(p & st & Hl & _)]; [exact (Hnot _ H)|].
         exfalso. exact (last_accesses _ _ Hacc Hl). }
    destruct (stat w p2) as [e|st2] eqn:Es2.
    { cbn. split; [discriminate|].
      intros [H|(p & st & Hl & Hs & _)]; [exact (Hnot _ H)|].
      rewrite last_snoc in Hl. congruence. }
    destruct (isDirectory st2) eqn:Ed.
    + destruct (not_false (opt_format opts) && truthy_str (opt_index opts)) eqn:Ef.
      * cbv zeta.
        destruct (stat w (p2 +:+ "/" +:+ str_of (opt_index opts))) as [e|st3] eqn:Es3;
          cbn; (split; [discriminate|]);
          intros [H|(p & st & _ & _ & _ & Hf)]; [exact (Hnot _ H) | discriminate
                                                 | exact (Hnot _ H) | discriminate].
      * cbn. split; [|reflexivity]. intros _. right. exists p2, st2.
        rewrite last_snoc. auto.
    + cbn. split; [discriminate|].
      intros [H|(p & st & Hl & Hs & Hd & _)]; [exact (Hnot _ H)|].
      rewrite last_snoc in Hl. congruence.
Qed.

Lemma not_applicable_cases_witness :
  fst (fst (resolve Demo.world Demo.plain "/docs" Demo.site)) = NotApplicable.
Proof.
  apply (proj2 (not_applicable_cases Demo.world Demo.plain "/docs" Demo.site)).
  right. exists "/srv/www/docs", Demo.directory.
  vm_compute. auto.
Defined.

Module SuffixFacts.

Lemma length_append (a b : string) :
  String.length (a +:+ b) = String.length a + String.length b.
Proof.
  induction a as [|x a IH]; [reflexivity|].
  change (S (String.length (a +:+ b)) = S (String.length a + String.length b)).
  rewrite IH. reflexivity.
Qed.

Lemma rev_app_spec (a b : string) : String.rev_app a b = String.rev a +:+ b.
Proof.
  revert b. induction a as [|x a IH]; intros b; [reflexivity|].
  unfold String.rev. cbn [String.rev_app]. rewrite IH, (IH (String x "")).
  rewrite append_assoc. reflexivity.
Qed.

Lemma rev_cons (x : ascii) (a : string) :
  String.rev (String x a) = String.rev a +:+ String x "".
Proof. unfold String.rev at 1. cbn [String.rev_app]. apply rev_app_spec. Qed.

Lemma rev_append (a b : string) :
  String.rev (a +:+ b) = String.rev b +:+ String.rev a.
Proof.
  induction a as [|x a IH].
  - change ("" +:+ b) with b. symmetry. apply append_empty_r.
  - change (String x a +:+ b) with (String x (a +:+ b)).
    rewrite !rev_cons, IH, append_assoc. reflexivity.
Qed.

Lemma rev_involutive (a : string) : String.rev (String.rev a) = a.
Proof.
  induction a as [|x a IH]; [reflexivity|].
  rewrite rev_cons, rev_append, IH. reflexivity.
Qed.

Lemma length_rev (a : string) : String.length (String.rev a) = String.length a.
Proof.
  induction a as [|x a IH]; [reflexivity|].
  rewrite rev_cons, length_append, IH. cbn. lia.
Qed.

Lemma prefix_append (a b : string) : String.prefix a (a +:+ b) = true.
Proof.
  induction a as [|x a IH]; [destruct b; reflexivity|].
  change (String x a +:+ b) with (String x (a +:+ b)). cbn [String.prefix].
  destruct (ascii_dec x x); [exact IH | contradiction].
Qed.

Lemma substr_append (a b : string) : Str.substr (String.length a) (a +:+ b) = b.
Proof.
  induction a as [|x a IH]; [destruct b; reflexivity|]. exact IH.
Qed.

Lemma ends_with_append (suffix b : string) : Str.ends_with suffix (b +:+ suffix) = true.
Proof. unfold Str.ends_with. rewrite rev_append. apply prefix_append. Qed.

Lemma drop_end_append (suffix b : string) :
  Str.drop_end (String.length suffix) (b +:+ suffix) = b.
Proof.
  unfold Str.drop_end. rewrite rev_append, <- (length_rev suffix), substr_append.
  apply rev_involutive.
Qed.

Lemma eqb_append_false (a b : string) :
  Str.is_empty a = false -> String.eqb b (a +:+ b) = false.
Proof.
  intros Ha. apply String.eqb_neq. intros E.
  apply (f_equal String.length) in E. rewrite length_append in E.
  destruct a; [discriminate|]. cbn in E. lia.
Qed.

(** The segments of a split hold no separator. *)
Lemma split_segments (c : ascii) (p seg : string) :
  In seg (Str.split c p) -> Str.contains_char c seg = false.
Proof.
  revert seg. induction p as [|d r IH]; intros seg.
  - intros [<-|[]]. reflexivity.
  - cbn [Str.split]. destruct (Ascii.eqb d c) eqn:Ed.
    + intros [<-|H]; [reflexivity | exact (IH _ H)].
    + destruct (Str.split c r) as [|h t] eqn:Es.
      * intros [<-|[]]. cbn. rewrite Ed. reflexivity.
      * intros [<-|H].
        -- cbn. rewrite Ed. apply IH. left. reflexivity.
        -- apply IH. right. exact H.
Qed.

(** The last segment is empty exactly for the empty string and for a
    string that ends with the separator. *)
Lemma split_last_nonempty (c : ascii) (p : string) (init : list string) (lst : string) :
  Str.split c p = init ++ [lst] ->
  Str.is_empty p = false -> Str.ends_with_char c p = false ->
  Str.is_empty lst = false.
Proof.
  revert init lst. induction p as [|d r IH]; intros init lst Hs Hp He; [discriminate|].
  cbn [Str.split] in Hs. unfold Str.ends_with_char in He. cbn [Str.last] in He.
  destruct r as [|d' r'].
  - cbn in Hs, He. rewrite He in Hs.
    destruct init as [|? [|? ?]]; cbn in Hs; simplify_eq. reflexivity.
  - destruct (Ascii.eqb d c).
    + destruct init as [|i0 init']; cbn [app] in Hs.
      * exfalso. injection Hs as _ Hs.
        cbn [Str.split] in Hs. destruct (Ascii.eqb d' c); [discriminate|].
        destruct (Str.split c r'); discriminate.
      * injection Hs as _ Hs. exact (IH init' lst Hs eq_refl He).
    + destruct (Str.split c (String d' r')) as [|h t] eqn:Es.
      * destruct init as [|? [|? ?]]; cbn in Hs; simplify_eq. reflexivity.
      * destruct init as [|i0 init']; cbn [app] in Hs.
        -- injection Hs as <- ->. reflexivity.
        -- injection Hs as _ ->. exact (IH (h :: init') lst eq_refl eq_refl He).
Qed.

End SuffixFacts.

Import SuffixFacts.

(* --------------------------------------------------------------------- *)
(** *** [type] *)

(** X9. The type of a file served from a precompressed sibling is the
    extension of the original file: for a path that does not end with the
    separator, [type] of the path with a suffix, given that suffix, is the
    extension of the path itself. *)
Theorem type_ignores_encoding (p suffix : string) :
  Str.is_empty p = false ->
  Str.ends_with_char Posix.sep_char p = false ->
  Str.is_empty suffix = false ->
  Str.contains_char Posix.sep_char suffix = false ->
  type (p +:+ suffix) suffix = Posix.extname p.
Proof.
  intros Hp Hend Hs Hsep.
  destruct (split_app_last Posix.sep_char suffix p Hsep) as (init & lst & E1 & E2).
  assert (Hlst : Str.is_empty lst = false)
    by exact (split_last_nonempty _ _ _ _ E1 Hp Hend).
  assert (Hb : Posix.basename p = lst).
  { unfold Posix.basename. rewrite E1. apply last_nonempty_snoc, Hlst. }
  assert (Hb' : Posix.basename (p +:+ suffix) = lst +:+ suffix).
  { unfold Posix.basename. rewrite E2.
    apply last_nonempty_snoc, is_empty_app_r, Hs. }
  assert (Hbl : Posix.basename lst = lst).
  { unfold Posix.basename. rewrite split_no_sep.
    - cbn. destruct lst; [discriminate | reflexivity].
    - apply (split_segments _ p). rewrite E1. apply in_or_app. right. left. reflexivity. }
  unfold type. destruct suffix as [|s0 suffix']; [discriminate|].
  cbn [String.eqb negb]. set (suffix := String s0 suffix') in *.
  unfold Posix.basename_ext. rewrite Hs. cbn [negb andb].
  assert (Hle : (String.length suffix <=? String.length (p +:+ suffix))%nat = true).
  { apply Nat.leb_le. rewrite length_append. lia. }
  rewrite Hle, (eqb_append_false p suffix Hp), Hb'.
  rewrite ends_with_append, (eqb_append_false lst suffix Hlst). cbn [negb andb].
  rewrite drop_end_append.
  unfold Posix.extname. rewrite Hbl, Hb. reflexivity.
Qed.

Lemma type_ignores_encoding_witness :
  type ("/srv/www/app.js" +:+ ".br") ".br" = Posix.extname "/srv/www/app.js".
Proof. apply type_ignores_encoding; reflexivity. Defined.

Module SegmentFacts.

Lemma split_not_nil (c : ascii) (p : string) : Str.split c p <> [].
Proof.
  destruct p as [|d r]; [discriminate|]. cbn [Str.split].
  destruct (Ascii.eqb d c); [discriminate|]. destruct (Str.split c r); discriminate.
Qed.

(** Splitting at a separator splits the list of segments. *)
Lemma split_app_sep (c : ascii) (a b : string) :
  Str.split c (a +:+ String c b) = Str.split c a ++ Str.split c b.
Proof.
  induction a as [|d r IH].
  - change ("" +:+ String c b) with (String c b). cbn [Str.split].
    rewrite Ascii.eqb_refl. reflexivity.
  - change (String d r +:+ String c b) with (String d (r +:+ String c b)).
    cbn [Str.split]. rewrite IH. destruct (Ascii.eqb d c); [reflexivity|].
    destruct (Str.split c r) as [|h t] eqn:Es; [|reflexivity].
    exfalso. exact (split_not_nil _ _ Es).
Qed.

Lemma substr_append_le (n : nat) (a b : string) :
  n <= String.length a -> Str.substr n (a +:+ b) = Str.substr n a +:+ b.
Proof.
  revert a. induction n as [|n IH]; intros a Hn; [reflexivity|].
  destruct a as [|x a]; [cbn in Hn; lia|].
  change (String x a +:+ b) with (String x (a +:+ b)). cbn [Str.substr].
  apply IH. cbn in Hn. lia.
Qed.

Lemma substr_beyond (n : nat) (a : string) :
  String.length a < n -> Str.substr n a = "".
Proof.
  revert a. induction n as [|n IH]; intros a Hn; [lia|].
  destruct a as [|x a]; [reflexivity|]. cbn [Str.substr]. apply IH. cbn in Hn. lia.
Qed.

End SegmentFacts.

Import SegmentFacts.

(* --------------------------------------------------------------------- *)
(** *** [isHidden] *)

(** X10. Everything below a hidden path is hidden: when [isHidden] holds
    of a path, it holds of every path obtained by appending a separator
    and further segments. *)
Theorem hidden_below (root p rest : string) :
  isHidden root p = true ->
  isHidden root (p +:+ Posix.sep +:+ rest) = true.
Proof.
  unfold isHidden. intros H.
  destruct (le_lt_dec (String.length root) (String.length p)) as [Hle|Hlt].
  - rewrite substr_append_le by exact Hle.
    change (Posix.sep +:+ rest) with (String Posix.sep_char rest).
    rewrite split_app_sep, existsb_app, H. reflexivity.
  - rewrite substr_beyond in H by exact Hlt. discriminate.
Qed.

Lemma hidden_below_witness :
  isHidden "/srv/www" ("/srv/www/.git" +:+ Posix.sep +:+ "config") = true.
Proof. apply hidden_below. reflexivity. Defined.

(* --------------------------------------------------------------------- *)
(** *** Extension fallback *)

Lemma with_dot_idempotent (e : string) : with_dot (with_dot e) = with_dot e.
Proof.
  unfold with_dot. destruct (Str.starts_with_char "." e) eqn:E; [rewrite E|];
    reflexivity.
Qed.

(** X11. An extension may be written with or without its leading dot:
    the fallback behaves the same on [["html"; ".htm"]] and on
    [[".html"; ".htm"]], for every path and every file system. *)
Theorem dot_is_optional (w : World) (l : list string) (p : string) (s : State) :
  extension_fallback w (Some (map JsString (map with_dot l))) p s
  = extension_fallback w (Some (map JsString l)) p s.
Proof.
  unfold extension_fallback. destruct (negb _); [|reflexivity].
  revert s. induction l as [|e l IH]; intros s; [reflexivity|].
  cbn [map probe]. cbv zeta. rewrite with_dot_idempotent.
  unfold bind. destruct (exists_ w (p +:+ with_dot e) s) as [[[|]| |] s'];
    [reflexivity | apply IH | reflexivity | reflexivity].
Qed.

(** X12. First match wins.  On a path whose basename has no dot, when the
    candidates of the entries before a string entry do not exist and its
    own candidate exists, the fallback yields that candidate, having
    probed exactly the candidates up to it, in order; the entries after it
    are not looked at, of whatever type they are.  When no candidate of a
    list of strings exists, all are probed in order and the path is
    unchanged. *)
Theorem first_match_wins (w : World) (p : string) (s : State) :
  Str.contains_char "." (Posix.basename p) = false ->
  (forall (pre : list string) (e : string) (post : list JsValue),
     (forall x, In x pre -> access w (p +:+ with_dot x) <> None) ->
     access w (p +:+ with_dot e) = None ->
     extension_fallback w (Some (map JsString pre ++ JsString e :: post)) p s
     = (Normal (p +:+ with_dot e),
        {| ctx := ctx s;
           trace := trace s ++ map (fun x => Access (p +:+ with_dot x)) (pre ++ [e]) |}))
  /\ (forall l : list string,
        (forall x, In x l -> access w (p +:+ with_dot x) <> None) ->
        extension_fallback w (Some (map JsString l)) p s
        = (Normal p,
           {| ctx := ctx s;
              trace := trace s ++ map (fun x => Access (p +:+ with_dot x)) l |})).
Proof.
  intros Hdot. unfold extension_fallback. rewrite Hdot. cbn [negb]. split.
  - intros pre e post. revert s. induction pre as [|x pre IH]; intros s Hpre He.
    + cbn [map app probe]. cbv zeta. unfold bind. rewrite exists_run.
      rewrite bool_decide_eq_true_2 by exact He. reflexivity.
    + cbn [map app probe]. cbv zeta. unfold bind. rewrite exists_run.
      rewrite bool_decide_eq_false_2 by (apply Hpre; left; reflexivity).
      rewrite IH by (try exact He; intros y Hy; apply Hpre; right; exact Hy).
      cbn [push ctx trace]. rewrite <- app_assoc. reflexivity.
  - intros l. revert s. induction l as [|x l IH]; intros s Hl.
    + cbn. rewrite app_nil_r. destruct s. reflexivity.
    + cbn [map probe]. cbv zeta. unfold bind. rewrite exists_run.
      rewrite bool_decide_eq_false_2 by (apply Hl; left; reflexivity).
      rewrite IH by (intros y Hy; apply Hl; right; exact Hy).
      cbn [push ctx trace]. rewrite <- app_assoc. reflexivity.
Qed.

Lemma first_match_wins_witness :
  extension_fallback Demo.world
    (Some (map JsString ["html"] ++ JsString "htm" :: [JsNumber 3]))
    "/srv/www/page" {| ctx := Demo.plain; trace := [] |}
  = (Normal ("/srv/www/page" +:+ with_dot "htm"),
     {| ctx := Demo.plain;
        trace := [] ++ map (fun x => Access ("/srv/www/page" +:+ with_dot x))
                           (["html"] ++ ["htm"]) |})
  /\ extension_fallback Demo.world (Some (map JsString ["html"; "xml"]))
       "/srv/www/page" {| ctx := Demo.plain; trace := [] |}
     = (Normal "/srv/www/page",
        {| ctx := Demo.plain;
           trace := [] ++ map (fun x => Access ("/srv/www/page" +:+ with_dot x))
                              ["html"; "xml"] |}).
Proof.
  split.
  - apply (proj1 (first_match_wins Demo.world "/srv/www/page"
                    {| ctx := Demo.plain; trace := [] |} eq_refl)
             ["html"] "htm" [JsNumber 3]).
    + intros x [<-|[]]. discriminate.
    + reflexivity.
  - apply (proj2 (first_match_wins Demo.world "/srv/www/page"
                    {| ctx := Demo.plain; trace := [] |} eq_refl)
             ["html"; "xml"]).
    intros x [<-|[<-|[]]]; discriminate.
Defined.

Module EncodingFacts.

(** Once negotiation is known, the rest of [serve] is the extension
    fallback followed by [finish]. *)
Lemma serve_after (w : World) (opts : Options) (rp : string) (s : State)
    (p1 ext : string) (s1 : State) :
  negotiate w (not_false (opt_brotli opts)) (not_false (opt_gzip opts)) rp s
  = (Normal (p1, ext), s1) ->
  exists r2 cands,
    extension_fallback w (opt_extensions opts) p1 s1
    = (r2, {| ctx := ctx s1;
              trace := trace s1 ++ map (fun e => Access (p1 +:+ e)) cands |})
    /\ length cands <= length (default [] (opt_extensions opts))
    /\ serve w opts rp s
       = finish w opts ext r2
           {| ctx := ctx s1;
              trace := trace s1 ++ map (fun e => Access (p1 +:+ e)) cands |}.
Proof.
  intros Hneg.
  destruct (extension_shape w (opt_extensions opts) p1 s1)
    as (r2 & cands & Hext & Hlen & _).
  exists r2, cands. split; [exact Hext|]. split; [exact Hlen|].
  unfold serve, bind. rewrite Hneg, Hext. unfold finish.
  destruct r2 as [p2| |e]; [|reflexivity..].
  rewrite stat_stage_run.
  destruct (stat w p2) as [e|st]; [reflexivity|].
  destruct (isDirectory st).
  - destruct (not_false (opt_format opts) && truthy_str (opt_index opts));
      [|reflexivity].
    cbv zeta. destruct (stat w _) as [e|st']; [reflexivity|].
    apply respond_run.
  - apply respond_run.
Qed.

Lemma encoded_ctx_encoding (enc : string) (c : Context) :
  headers (encoded_ctx enc c) !! "content-encoding" = Some enc.
Proof.
  unfold encoded_ctx, removeHeader, set, with_headers. cbn [headers].
  change (Str.lower "Content-Length") with "content-length".
  change (Str.lower "Content-Encoding") with "content-encoding".
  rewrite lookup_delete_ne by discriminate. apply lookup_insert_eq.
Qed.

(** [respond] does not write Content-Encoding. *)
Lemma responded_content_encoding (sh : SetHeaders) (m : Z) (imm : bool)
    (ext p : string) (st : Stats) (c : Context) :
  headers (responded sh m imm ext p st c) !! "content-encoding"
  = headers (hooked sh p st c) !! "content-encoding".
Proof.
  unfold responded. rewrite set_body_lookup_ne by discriminate.
  rewrite default_type_lookup_ne by discriminate.
  rewrite !default_header_lookup_ne by discriminate.
  apply set_lookup_ne. discriminate.
Qed.

End EncodingFacts.

Import EncodingFacts.

(* --------------------------------------------------------------------- *)
(** *** Gzip *)

(** X13. When brotli is not chosen (the client does not prefer it, the
    option is off, or there is no [.br] sibling) and the client accepts
    gzip, the option is on and the [.gz] sibling exists, the request
    probes the [.gz] sibling (after the [.br] one, if that was tried),
    stats it and makes no further existence check; a resolved request
    serves the [.gz] sibling (or the index under it) with
    Content-Encoding gzip. *)
Theorem gzip_when_no_brotli (w : World) (c : Context) (path : string)
    (opts : Options) (rp : string) :
  candidate w path opts = Some rp ->
  negb (or_false (opt_hidden opts)) && isHidden (root_of w opts) rp = false ->
  acceptsEncodings c ["br"; "identity"] <> Some "br"
  \/ not_false (opt_brotli opts) = false
  \/ access w (rp +:+ ".br") <> None ->
  acceptsEncodings c ["gzip"; "identity"] = Some "gzip" ->
  not_false (opt_gzip opts) = true ->
  access w (rp +:+ ".gz") = None ->
  exists out c' pre rest,
    resolve w c path opts
    = (out, c', pre ++ Access (rp +:+ ".gz") :: Stat (rp +:+ ".gz") :: rest)
    /\ (pre = [] \/ pre = [Access (rp +:+ ".br")])
    /\ Forall is_stat rest
    /\ forall fp, out = Resolved fp ->
         body c' = Some fp
         /\ (fp = rp +:+ ".gz"
             \/ fp = (rp +:+ ".gz") +:+ "/" +:+ str_of (opt_index opts))
         /\ (hook_keeps "content-encoding" (opt_setHeaders opts) ->
             headers c' !! "content-encoding" = Some "gzip").
Proof.
  intros Hcand Hhid Hnobr Hgz Hog Hfgz.
  set (s0 := {| ctx := c; trace := [] |}).
  set (tb := bool_decide (acceptsEncodings c ["br"; "identity"] = Some "br")
             && not_false (opt_brotli opts)).
  set (pre := if tb then [Access (rp +:+ ".br")] else []).
  assert (Hneg : negotiate w (not_false (opt_brotli opts)) (not_false (opt_gzip opts))
                   rp s0
                 = (Normal (rp +:+ ".gz", ".gz"),
                    {| ctx := encoded_ctx "gzip" c;
                       trace := pre ++ [Access (rp +:+ ".gz")] |})).
  { rewrite negotiate_unfold. cbv zeta. cbn [s0 ctx]. fold tb.
    assert (Hno : tb && bool_decide (access w (rp +:+ ".br") = None) = false).
    { unfold tb. destruct Hnobr as [H|[H|H]].
      - rewrite (bool_decide_eq_false_2 _ H). reflexivity.
      - rewrite H, andb_false_r. reflexivity.
      - rewrite (bool_decide_eq_false_2 _ H), andb_false_r. reflexivity. }
    rewrite Hno, Hgz, Hog, (bool_decide_eq_true_2 _ Hfgz).
    rewrite bool_decide_eq_true_2 by reflexivity. cbn [andb].
    unfold pre. destruct tb; reflexivity. }
  destruct (serve_after _ _ _ _ _ _ _ Hneg) as (r2 & cands & Hext & _ & Hserve).
  rewrite extension_skipped in Hext by apply basename_gz.
  cbn [ctx trace] in Hext, Hserve.
  assert (r2 = Normal (rp +:+ ".gz")) as -> by congruence.
  assert (Htr : (pre ++ [Access (rp +:+ ".gz")])
                ++ map (fun e => Access ((rp +:+ ".gz") +:+ e)) cands
                = pre ++ [Access (rp +:+ ".gz")]).
  { injection Hext as Hext. symmetry. exact Hext. }
  rewrite Htr in Hserve. clear Hext Htr.
  assert (Hpre : pre = [] \/ pre = [Access (rp +:+ ".br")])
    by (unfold pre; destruct tb; auto).
  assert (Henc : forall p st,
            hook_keeps "content-encoding" (opt_setHeaders opts) ->
            headers (responded (opt_setHeaders opts) (maxage_of opts)
                       (or_false (opt_immutable opts)) ".gz" p st
                       (encoded_ctx "gzip" c)) !! "content-encoding" = Some "gzip").
  { intros p st Hk. rewrite responded_content_encoding, hooked_lookup by exact Hk.
    apply encoded_ctx_encoding. }
  unfold resolve. rewrite (send_at_candidate _ _ _ _ Hcand), Hhid.
  unfold complete. fold s0. rewrite Hserve. unfold finish.
  destruct (stat w (rp +:+ ".gz")) as [e|st].
  { exists (Failed (classified e)), (encoded_ctx "gzip" c), pre, [].
    cbn. rewrite <- app_assoc.
    split_and!; [reflexivity | exact Hpre | constructor | discriminate]. }
  destruct (isDirectory st).
  - destruct (not_false (opt_format opts) && truthy_str (opt_index opts)).
    + cbv zeta.
      destruct (stat w ((rp +:+ ".gz") +:+ "/" +:+ str_of (opt_index opts))) as [e|st'].
      * eexists _, _, pre, [_]. cbn. rewrite <- !app_assoc.
        split_and!; [reflexivity | exact Hpre | | discriminate].
        repeat constructor. eexists; reflexivity.
      * eexists _, _, pre, [_]. cbn. rewrite <- !app_assoc.
        split_and!; [reflexivity | exact Hpre | |].
        -- repeat constructor. eexists; reflexivity.
        -- intros fp [= <-]. split_and!; [reflexivity | auto | apply Henc].
    + eexists _, _, pre, []. cbn. rewrite <- app_assoc.
      split_and!; [reflexivity | exact Hpre | constructor | discriminate].
  - eexists _, _, pre, []. cbn. rewrite <- app_assoc.
    split_and!; [reflexivity | exact Hpre | constructor |].
    intros fp [= <-]. split_and!; [reflexivity | auto | apply Henc].
Qed.

Lemma gzip_when_no_brotli_witness :
  exists out c' pre rest,
    resolve Demo.world Demo.eager "/app.js" no_brotli
    = (out, c', pre ++ Access ("/srv/www/app.js" +:+ ".gz")
                   :: Stat ("/srv/www/app.js" +:+ ".gz") :: rest)
    /\ (pre = [] \/ pre = [Access ("/srv/www/app.js" +:+ ".br")])
    /\ Forall is_stat rest
    /\ forall fp, out = Resolved fp ->
         body c' = Some fp
         /\ (fp = "/srv/www/app.js" +:+ ".gz"
             \/ fp = ("/srv/www/app.js" +:+ ".gz") +:+ "/" +:+ str_of (opt_index no_brotli))
         /\ (hook_keeps "content-encoding" (opt_setHeaders no_brotli) ->
             headers c' !! "content-encoding" = Some "gzip").
Proof.
  apply (gzip_when_no_brotli Demo.world Demo.eager "/app.js" no_brotli
           "/srv/www/app.js"); try reflexivity.
  right; left; reflexivity.
Defined.

Module DecodeFacts.

Lemma append_cons (x : ascii) (a b : string) : String x a +:+ b = String x (a +:+ b).
Proof. reflexivity. Qed.

Lemma append_nil (b : string) : "" +:+ b = b.
Proof. reflexivity. Qed.

Lemma unescape_lits (b : string) :
  Str.contains_char "%" b = false -> Uri.unescape b = Some (lits b).
Proof.
  induction b as [|c r IH]; intros H; [reflexivity|].
  cbn [Str.contains_char] in H. apply orb_false_iff in H as [Hc Hr].
  cbn [Uri.unescape lits]. rewrite Hc, (IH Hr). reflexivity.
Qed.

Lemma assemble_lits (b : string) : Uri.assemble (lits b) = Some b.
Proof.
  induction b as [|c r IH]; [reflexivity|].
  cbn [lits Uri.assemble]. rewrite IH. reflexivity.
Qed.

(** An escape sequence cannot straddle a slash: unescaping a string that
    continues after a slash with escape-free text. *)
Lemma unescape_append_bounded (b : string) (n : nat) :
  Str.contains_char "%" b = false ->
  forall a, String.length a <= n ->
  Uri.unescape (a +:+ "/" +:+ b)
  = option_map (fun ts => ts ++ lits b) (Uri.unescape (a +:+ "/")).
Proof.
  intros Hb. pose proof (unescape_lits b Hb) as Hl.
  assert (Hslash : Uri.hex_val "/" = None) by reflexivity.
  induction n as [n IH] using lt_wf_ind. intros a Ha.
  destruct a as [|c a].
  { rewrite !append_nil. change ("/" +:+ b) with (String "/" b).
    cbn [Uri.unescape]. change (Ascii.eqb "/" "%") with false. cbv iota.
    rewrite Hl. reflexivity. }
  rewrite !append_cons. cbn [Uri.unescape].
  destruct (Ascii.eqb c "%").
  - destruct a as [|h1 a].
    { rewrite !append_nil. change ("/" +:+ b) with (String "/" b).
      change ("/" +:+ "") with (String "/" "").
      destruct b; [reflexivity|]. rewrite Hslash. reflexivity. }
    destruct a as [|h2 a].
    { rewrite !append_cons, !append_nil. change ("/" +:+ b) with (String "/" b).
      change ("/" +:+ "") with (String "/" "").
      rewrite Hslash. destruct (Uri.hex_val h1); reflexivity. }
    rewrite !append_cons.
    destruct (Uri.hex_val h1); [|reflexivity].
    destruct (Uri.hex_val h2); [|reflexivity].
    cbn [String.length] in Ha.
    rewrite (IH (String.length a)) by lia.
    destruct (Uri.unescape (a +:+ "/")); reflexivity.
  - cbn [String.length] in Ha.
    rewrite (IH (String.length a)) by lia.
    destruct (Uri.unescape (a +:+ "/")); reflexivity.
Qed.

Lemma emit_append (bs : list N) (r : option string) (b : string) :
  Uri.emit bs (option_map (fun s => s +:+ b) r)
  = option_map (fun s => s +:+ b) (Uri.emit bs r).
Proof.
  destruct r as [s|]; [|reflexivity]. cbn [option_map Uri.emit]. f_equal.
  induction bs as [|x bs IH]; [reflexivity|].
  cbn [fold_right]. rewrite IH. reflexivity.
Qed.

(** Escape-free text after the tokens is copied: it neither completes nor
    breaks a UTF-8 sequence that is complete before it. *)
Lemma assemble_append_bounded (b : string) (n : nat) :
  forall ts, length ts <= n ->
  Uri.assemble (ts ++ lits b)
  = option_map (fun s => s +:+ b) (Uri.assemble ts).
Proof.
  induction n as [n IH] using lt_wf_ind. intros ts Hts.
  assert (Hstep : forall r, length r < length ts ->
            Uri.assemble (r ++ lits b)
            = option_map (fun s => s +:+ b) (Uri.assemble r)).
  { intros r Hr. apply (IH (length r)); lia. }
  clear IH.
  destruct ts as [|[c|b0] r].
  { cbn [app Uri.assemble option_map]. rewrite assemble_lits. reflexivity. }
  { cbn [app Uri.assemble]. rewrite Hstep by (cbn [length]; lia).
    destruct (Uri.assemble r); reflexivity. }
  rewrite <- app_comm_cons. cbn [Uri.assemble].
  destruct (b0 <? 128)%N.
  { rewrite Hstep by (cbn [length]; lia). apply emit_append. }
  destruct (Uri.utf8_lead b0) as [[[k lo] hi]|]; [|reflexivity].
  assert (Hnil : forall (X Y : option string),
            match lits b with
            | Uri.Esc _ :: _ => X
            | _ => Y
            end = Y).
  { intros. destruct b; reflexivity. }
  destruct k as [|[|[|[|k]]]].
  - destruct (r ++ lits b); destruct r; reflexivity.
  - destruct r as [|[c1|b1] r1]; cbn [app].
    + destruct b; reflexivity.
    + reflexivity.
    + destruct (Uri.between lo hi b1); [|reflexivity].
      rewrite Hstep by (cbn [length]; lia). apply emit_append.
  - destruct r as [|[c1|b1] r1]; cbn [app].
    + destruct b; reflexivity.
    + reflexivity.
    + destruct r1 as [|[c2|b2] r2]; cbn [app].
      * destruct b; reflexivity.
      * reflexivity.
      * destruct (Uri.between lo hi b1 && Uri.cont b2); [|reflexivity].
        rewrite Hstep by (cbn [length]; lia). apply emit_append.
  - destruct r as [|[c1|b1] r1]; cbn [app].
    + destruct b; reflexivity.
    + reflexivity.
    + destruct r1 as [|[c2|b2] r2]; cbn [app].
      * destruct b; reflexivity.
      * reflexivity.
      * destruct r2 as [|[c3|b3] r3]; cbn [app].
        -- destruct b; reflexivity.
        -- reflexivity.
        -- destruct (Uri.between lo hi b1 && Uri.cont b2 && Uri.cont b3); [|reflexivity].
           rewrite Hstep by (cbn [length]; lia). apply emit_append.
  - destruct (r ++ lits b) as [|[?|?] [|[?|?] [|[?|?] ?]]];
      destruct r as [|[?|?] [|[?|?] [|[?|?] ?]]]; reflexivity.
Qed.

(** Decoding a path that continues after a slash with escape-free text. *)
Lemma decode_append (a b : string) :
  Str.contains_char "%" b = false ->
  decode ((a +:+ "/") +:+ b)
  = option_map (fun d => d +:+ b) (decode (a +:+ "/")).
Proof.
  intros Hb. unfold decode, Uri.decodeURIComponent.
  rewrite append_assoc.
  rewrite (unescape_append_bounded b (String.length a) Hb a) by lia.
  destruct (Uri.unescape (a +:+ "/")) as [ts|]; [|reflexivity].
  cbn [option_map]. apply (assemble_append_bounded b (length ts)). lia.
Qed.

Lemma last_append (a b : string) :
  Str.is_empty b = false -> Str.last (a +:+ b) = Str.last b.
Proof.
  intros Hb. induction a as [|x a IH]; [reflexivity|].
  rewrite append_cons. cbn [Str.last]. rewrite IH.
  destruct (a +:+ b) eqn:E; [|reflexivity].
  destruct a; [|discriminate]. rewrite append_nil in E. subst b. discriminate.
Qed.

Lemma ends_with_char_append (c : ascii) (a b : string) :
  Str.is_empty b = false ->
  Str.ends_with_char c (a +:+ b) = Str.ends_with_char c b.
Proof. intros Hb. unfold Str.ends_with_char. rewrite last_append by exact Hb. reflexivity. Qed.

Lemma is_empty_append (a b : string) :
  Str.is_empty b = false -> Str.is_empty (a +:+ b) = false.
Proof. intros Hb. destruct a; [exact Hb|reflexivity]. Qed.

(** Stripping the root marker commutes with appending to a path that
    ends in a slash; the stripped path is empty or ends in a slash. *)
Lemma stripped_slash (p : string) :
  (stripped (p +:+ "/") = ""
   /\ forall i, stripped ((p +:+ "/") +:+ i) = i)
  \/ exists a, stripped (p +:+ "/") = a +:+ "/"
               /\ forall i, stripped ((p +:+ "/") +:+ i) = (a +:+ "/") +:+ i.
Proof.
  assert (Hs : forall c q, stripped (String c q)
                = if Ascii.eqb c Posix.sep_char then q else String c q).
  { intros c q. unfold stripped, Posix.parse_root, Posix.isAbsolute.
    cbn [Str.starts_with_char]. destruct (Ascii.eqb c Posix.sep_char); reflexivity. }
  destruct p as [|c p].
  { left. split; [reflexivity|]. intros i. reflexivity. }
  destruct (Ascii.eqb c Posix.sep_char) eqn:E.
  - right. exists p. split.
    + rewrite append_cons, Hs, E. reflexivity.
    + intros i. rewrite !append_cons, Hs, E. reflexivity.
  - right. exists (String c p). split.
    + rewrite append_cons, Hs, E. reflexivity.
    + intros i. rewrite !append_cons, Hs, E. reflexivity.
Qed.

End DecodeFacts.

Import DecodeFacts.

(* --------------------------------------------------------------------- *)
(** *** Directory requests *)

(** X14. With an index configured, a request for a path that ends in a
    slash is the request for the index under it: same outcome, same
    context, same file system calls (the index name being free of
    escape sequences and not itself ending in a slash). *)
Theorem trailing_slash_is_index (w : World) (c : Context) (opts : Options)
    (p i : string) :
  opt_index opts = Some i ->
  Str.is_empty i = false ->
  Str.contains_char "%" i = false ->
  Str.ends_with_char "/" i = false ->
  resolve w c (p +:+ "/") opts = resolve w c ((p +:+ "/") +:+ i) opts.
Proof.
  intros Hidx Hne Hpc Hsl.
  assert (Hsend : send w (p +:+ "/") opts = send w ((p +:+ "/") +:+ i) opts).
  { unfold send.
    rewrite (is_empty_append p "/" eq_refl).
    rewrite (is_empty_append (p +:+ "/") i Hne).
    destruct (bad_setHeaders (opt_setHeaders opts)); [reflexivity|].
    rewrite (ends_with_char_append "/" p "/" eq_refl).
    rewrite (ends_with_char_append "/" (p +:+ "/") i Hne), Hsl.
    change (Str.ends_with_char "/" "/") with true.
    rewrite Hidx. cbn [truthy_str str_of]. rewrite Hne. cbn [negb andb].
    fold (stripped (p +:+ "/")). fold (stripped ((p +:+ "/") +:+ i)).
    destruct (stripped_slash p) as [[E1 E2]|(a & E1 & E2)]; rewrite E1, E2.
    - unfold decode at 2. rewrite (decode_no_percent i Hpc).
      reflexivity.
    - rewrite (decode_append a i Hpc).
      destruct (decode (a +:+ "/")); reflexivity. }
  unfold resolve. rewrite Hsend. reflexivity.
Qed.

Lemma trailing_slash_is_index_witness :
  resolve Demo.world Demo.eager ("/docs" +:+ "/") with_index
  = resolve Demo.world Demo.eager (("/docs" +:+ "/") +:+ "index.html") with_index.
Proof.
  apply (trailing_slash_is_index Demo.world Demo.eager with_index
           "/docs" "index.html"); reflexivity.
Defined.

Module TypeFacts.

Lemma get_type_ext (a b : Context) :
  headers a !! "content-type" = headers b !! "content-type" ->
  get_type a = get_type b.
Proof.
  intros H. unfold get_type, get.
  change (Str.lower "Content-Type") with "content-type". rewrite H. reflexivity.
Qed.

Lemma mime_default_header (field val : string) (c : Context) :
  mime (default_header field val c) = mime c.
Proof. unfold default_header. destruct (Str.is_empty _); reflexivity. Qed.

Lemma mime_hooked (sh : SetHeaders) (p : string) (st : Stats) (c : Context) :
  mime (hooked sh p st c) = mime c.
Proof. destruct sh; reflexivity. Qed.

Lemma set_type_lookup_eq (t : string) (c : Context) :
  headers (set_type t c) !! "content-type"
  = match mime c t with
    | Some ct => if Str.is_empty ct then None else Some ct
    | None => None
    end.
Proof.
  unfold set_type, removeHeader, set, with_headers.
  change (Str.lower "Content-Type") with "content-type".
  destruct (mime c t) as [ct|]; [destruct (Str.is_empty ct)|]; cbn [headers].
  - apply lookup_delete_eq.
  - apply lookup_insert_eq.
  - apply lookup_delete_eq.
Qed.

(** The body setter leaves a Content-Type that is present, and gives the
    response the type ["bin"] otherwise. *)
Lemma set_body_content_type (p : string) (c : Context) :
  headers (set_body p c) !! "content-type"
  = match headers c !! "content-type" with
    | Some v => Some v
    | None => looked_up c "bin"
    end.
Proof.
  unfold set_body, has. cbv zeta. cbn [headers].
  change (Str.lower "Content-Type") with "content-type".
  set (c1 := match body c with
             | Some _ => removeHeader "Content-Length" c
             | None => c
             end).
  assert (H1 : headers c1 !! "content-type" = headers c !! "content-type").
  { unfold c1. destruct (body c); [|reflexivity].
    apply remove_lookup_ne. discriminate. }
  assert (Hm : mime c1 = mime c) by (unfold c1; destruct (body c); reflexivity).
  destruct (headers c !! "content-type") as [v|] eqn:E; cbn [negb].
  - rewrite H1. reflexivity.
  - rewrite set_type_lookup_eq, Hm. reflexivity.
Qed.

(** A type part that is not empty comes from a header that is present. *)
Lemma get_type_present (c : Context) :
  Str.is_empty (get_type c) = false ->
  exists v, headers c !! "content-type" = Some v.
Proof.
  unfold get_type, get. change (Str.lower "Content-Type") with "content-type".
  destruct (headers c !! "content-type") as [v|]; [eauto|].
  cbn. discriminate.
Qed.

(** The Content-Type [respond] leaves. *)
Lemma responded_content_type (sh : SetHeaders) (m : Z) (imm : bool)
    (ext p : string) (st : Stats) (c : Context) :
  headers (responded sh m imm ext p st c) !! "content-type"
  = if Str.is_empty (get_type (hooked sh p st c))
    then match looked_up c (type p ext) with
         | Some ct => Some ct
         | None => looked_up c "bin"
         end
    else headers (hooked sh p st c) !! "content-type".
Proof.
  unfold responded. rewrite set_body_content_type.
  set (c4 := default_header "Cache-Control" _ _).
  assert (H4 : headers c4 !! "content-type"
               = headers (hooked sh p st c) !! "content-type").
  { unfold c4. rewrite !default_header_lookup_ne by discriminate.
    apply set_lookup_ne. discriminate. }
  assert (Hm : mime c4 = mime c).
  { unfold c4. rewrite !mime_default_header. cbn [set with_headers mime].
    apply mime_hooked. }
  assert (Hbin : looked_up (default_type (type p ext) c4) "bin" = looked_up c "bin").
  { unfold looked_up, default_type, set_type.
    destruct (Str.is_empty (get_type c4)); [|rewrite Hm; reflexivity].
    destruct (mime c4 (type p ext)) as [ct|]; [destruct (Str.is_empty ct)|];
      cbn [removeHeader set with_headers mime]; rewrite Hm; reflexivity. }
  rewrite Hbin. unfold default_type. rewrite (get_type_ext _ _ H4).
  destruct (Str.is_empty (get_type (hooked sh p st c))) eqn:Et.
  - rewrite set_type_lookup_eq, Hm. reflexivity.
  - rewrite H4. destruct (get_type_present _ Et) as [v ->]. reflexivity.
Qed.

(** Negotiation yields the suffix [encoding_ext] computes. *)
Lemma negotiate_ext (w : World) (opts : Options) (c : Context) (rp : string) :
  exists p1 s1,
    negotiate w (not_false (opt_brotli opts)) (not_false (opt_gzip opts)) rp
      {| ctx := c; trace := [] |}
    = (Normal (p1, encoding_ext w opts c rp), s1)
    /\ (ctx s1 = c \/ ctx s1 = encoded_ctx "br" c \/ ctx s1 = encoded_ctx "gzip" c).
Proof.
  rewrite negotiate_unfold. cbv zeta. unfold encoding_ext. cbn [ctx].
  destruct (bool_decide (acceptsEncodings c ["br"; "identity"] = Some "br")
            && not_false (opt_brotli opts));
    destruct (bool_decide (access w (rp +:+ ".br") = None));
    destruct (bool_decide (acceptsEncodings c ["gzip"; "identity"] = Some "gzip")
              && not_false (opt_gzip opts));
    destruct (bool_decide (access w (rp +:+ ".gz") = None));
    cbn [andb]; eexists _, _; (split; [reflexivity|]); cbn; auto.
Qed.

(** The context of a resolved request, with the suffix negotiation
    chose. *)
Lemma resolved_context (w : World) (c : Context) (path : string) (opts : Options)
    (rp fp : string) (c' : Context) (tr : list FsCall) :
  candidate w path opts = Some rp ->
  resolve w c path opts = (Resolved fp, c', tr) ->
  exists st c1,
    stat w fp = inr st
    /\ (c1 = c \/ c1 = encoded_ctx "br" c \/ c1 = encoded_ctx "gzip" c)
    /\ c' = responded (opt_setHeaders opts) (maxage_of opts)
              (or_false (opt_immutable opts)) (encoding_ext w opts c rp) fp st c1.
Proof.
  intros Hcand Hres.
  destruct (resolve_cases w c path opts)
    as [[Hnone _]|[(rp' & _ & _ & He)|(rp' & Hc' & _ & He)]].
  - congruence.
  - rewrite He in Hres. discriminate.
  - assert (rp' = rp) as -> by congruence.
    rewrite He in Hres. clear He.
    destruct (negotiate_ext w opts c rp) as (p1 & s1 & Hneg & Hc1).
    destruct (serve_after _ _ _ _ _ _ _ Hneg) as (r2 & cands & _ & _ & Hserve).
    unfold complete in Hres. rewrite Hserve in Hres. clear Hserve.
    unfold finish in Hres.
    destruct r2 as [p2| |e]; [|discriminate..].
    destruct (stat w p2) as [e|st] eqn:Es; [discriminate|].
    destruct (isDirectory st).
    + destruct (not_false (opt_format opts) && truthy_str (opt_index opts));
        [|discriminate].
      cbv zeta in Hres.
      destruct (stat w (p2 +:+ "/" +:+ str_of (opt_index opts))) as [e|st'] eqn:Es';
        [discriminate|].
      cbn [outcome_of ctx trace push on_ctx] in Hres.
      injection Hres as <- <- _. exists st', (ctx s1). auto.
    + cbn [outcome_of ctx trace push on_ctx] in Hres.
      injection Hres as <- <- _. exists st, (ctx s1). auto.
Qed.

End TypeFacts.

Import TypeFacts.

(* --------------------------------------------------------------------- *)
(** *** Content-Type *)

(** X15. A resolved request leaves a Content-Type whose type part (the
    text before the first semicolon) is not empty as it is.  Otherwise
    Content-Type becomes what the context's lookup gives for
    [type(path, encodingExt)] of the file served, [encodingExt] being the
    suffix of the sibling negotiation chose on the candidate path; when
    that lookup knows nothing the header is removed and the body setter
    then gives the response the type ["bin"] (in koa,
    application/octet-stream).  All this provided the hook (if any)
    leaves Content-Type alone. *)
Theorem content_type_default (w : World) (c : Context) (path : string)
    (opts : Options) (rp fp : string) (c' : Context) (tr : list FsCall) :
  candidate w path opts = Some rp ->
  resolve w c path opts = (Resolved fp, c', tr) ->
  hook_keeps "content-type" (opt_setHeaders opts) ->
  headers c' !! "content-type"
  = if Str.is_empty (get_type c)
    then match looked_up c (type fp (encoding_ext w opts c rp)) with
         | Some ct => Some ct
         | None => looked_up c "bin"
         end
    else headers c !! "content-type".
Proof.
  intros Hcand Hres Hk.
  destruct (resolved_context _ _ _ _ _ _ _ _ Hcand Hres) as (st & c1 & Hst & Hc1 & ->).
  rewrite responded_content_type.
  assert (H0 : headers c1 !! "content-type" = headers c !! "content-type"
               /\ mime c1 = mime c).
  { destruct Hc1 as [->|[->| ->]]; split; try reflexivity;
      apply encoded_ctx_lookup_ne; discriminate. }
  destruct H0 as [H1 Hm].
  assert (H2 : headers (hooked (opt_setHeaders opts) fp st c1) !! "content-type"
               = headers c !! "content-type").
  { rewrite hooked_lookup by exact Hk. exact H1. }
  rewrite (get_type_ext _ _ H2), H2. unfold looked_up. rewrite Hm. reflexivity.
Qed.

Lemma content_type_default_witness :
  headers (snd (fst (resolve Demo.world Demo.eager "/app.js" Demo.site)))
    !! "content-type"
  = if Str.is_empty (get_type Demo.eager)
    then match looked_up Demo.eager
                 (type "/srv/www/app.js.br"
                    (encoding_ext Demo.world Demo.site Demo.eager "/srv/www/app.js")) with
         | Some ct => Some ct
         | None => looked_up Demo.eager "bin"
         end
    else headers Demo.eager !! "content-type".
Proof.
  apply (content_type_default Demo.world Demo.eager "/app.js" Demo.site
           "/srv/www/app.js" "/srv/www/app.js.br"
           (snd (fst (resolve Demo.world Demo.eager "/app.js" Demo.site)))
           (snd (resolve Demo.world Demo.eager "/app.js" Demo.site))).
  - reflexivity.
  - vm_compute. reflexivity.
  - exact I.
Defined.

(** A file whose extension the lookup does not know goes out as
    application/octet-stream. *)
Example unknown_type_is_binary :
  fst (fst (resolve Demo.world Demo.plain "/a%20b" Demo.site))
  = Resolved "/srv/www/a b"
  /\ headers (snd (fst (resolve Demo.world Demo.plain "/a%20b" Demo.site)))
       !! "content-type" = Some "application/octet-stream".
Proof. vm_compute. split; reflexivity. Qed.

(** On the demo site the brotli variant of [app.js] goes out as
    JavaScript. *)
Example variant_content_type :
  headers (snd (fst (resolve Demo.world Demo.eager "/app.js" Demo.site)))
    !! "content-type" = Demo.mime_table ".js".
Proof. vm_compute. reflexivity. Qed.

(* --------------------------------------------------------------------- *)
(** *** No encoding negotiated *)

(** X16. When neither encoding is both enabled and preferred by the
    client, no sibling is chosen: every existence check is one of the
    extension fallback, a request that does not resolve leaves the
    context as it was, and Content-Encoding stays as it was provided the
    hook (if any) leaves it alone. *)
Theorem identity_only (w : World) (c : Context) (path : string) (opts : Options)
    (out : Outcome) (c' : Context) (tr : list FsCall) :
  resolve w c path opts = (out, c', tr) ->
  not_false (opt_brotli opts) = false
  \/ acceptsEncodings c ["br"; "identity"] <> Some "br" ->
  not_false (opt_gzip opts) = false
  \/ acceptsEncodings c ["gzip"; "identity"] <> Some "gzip" ->
  (exists cands stats,
     tr = cands ++ stats
     /\ Forall is_access cands
     /\ length cands <= length (default [] (opt_extensions opts))
     /\ Forall is_stat stats)
  /\ ((forall fp, out <> Resolved fp) -> c' = c)
  /\ (hook_keeps "content-encoding" (opt_setHeaders opts) ->
      headers c' !! "content-encoding" = headers c !! "content-encoding").
Proof.
  intros Hres Hbr Hgz.
  assert (Hnil : exists cands stats : list FsCall,
            [] = cands ++ stats /\ Forall is_access cands
            /\ length cands <= length (default [] (opt_extensions opts))
            /\ Forall is_stat stats).
  { exists [], []. split_and!; [reflexivity | constructor | cbn; lia | constructor]. }
  destruct (resolve_cases w c path opts)
    as [[_ [e He]]|[(rp & _ & _ & He)|(rp & Hcand & _ & He)]];
    rewrite He in Hres.
  1,2: injection Hres as <- <- <-; split_and!; [exact Hnil | reflexivity..].
  clear He Hnil.
  set (s0 := {| ctx := c; trace := [] |}).
  assert (Hneg : negotiate w (not_false (opt_brotli opts)) (not_false (opt_gzip opts))
                   rp s0 = (Normal (rp, ""), s0)).
  { rewrite negotiate_unfold. cbv zeta. cbn [s0 ctx].
    assert (Hb : bool_decide (acceptsEncodings c ["br"; "identity"] = Some "br")
                 && not_false (opt_brotli opts) = false).
    { destruct Hbr as [->|H]; [apply andb_false_r|].
      rewrite (bool_decide_eq_false_2 _ H). reflexivity. }
    assert (Hg : bool_decide (acceptsEncodings c ["gzip"; "identity"] = Some "gzip")
                 && not_false (opt_gzip opts) = false).
    { destruct Hgz as [->|H]; [apply andb_false_r|].
      rewrite (bool_decide_eq_false_2 _ H). reflexivity. }
    rewrite Hb, Hg. reflexivity. }
  destruct (serve_after _ _ _ _ _ _ _ Hneg) as (r2 & cands & _ & Hlen & Hserve).
  unfold complete in Hres. fold s0 in Hres. rewrite Hserve in Hres. clear Hserve.
  cbn [s0 ctx trace app] in Hres.
  set (probes := map (fun e => Access (rp +:+ e)) cands) in Hres.
  assert (Hprobes : Forall is_access probes
                    /\ length probes <= length (default [] (opt_extensions opts))).
  { split; [|unfold probes; rewrite length_map; exact Hlen].
    apply List.Forall_forall. intros x Hx. unfold probes in Hx.
    apply in_map_iff in Hx as (e & <- & _). eexists; reflexivity. }
  destruct Hprobes as [Hacc Hbound].
  assert (Henc : forall p st,
            hook_keeps "content-encoding" (opt_setHeaders opts) ->
            headers (responded (opt_setHeaders opts) (maxage_of opts)
                       (or_false (opt_immutable opts)) "" p st c)
              !! "content-encoding" = headers c !! "content-encoding").
  { intros p st Hk. rewrite responded_content_encoding. apply hooked_lookup, Hk. }
  unfold finish in Hres.
  destruct r2 as [p2| |e].
  - destruct (stat w p2) as [e|st].
    { close Hres. split_and!; [|reflexivity..].
      exists probes, [Stat p2].
      split_and!; [reflexivity | exact Hacc | exact Hbound |].
      repeat constructor. eexists; reflexivity. }
    destruct (isDirectory st).
    + destruct (not_false (opt_format opts) && truthy_str (opt_index opts)).
      * cbv zeta in Hres.
        destruct (stat w (p2 +:+ "/" +:+ str_of (opt_index opts))) as [e|st'];
          close Hres.
        -- split_and!; [|reflexivity..].
           exists probes, [Stat p2; Stat (p2 +:+ "/" +:+ str_of (opt_index opts))].
           split_and!; [rewrite <- app_assoc; reflexivity | exact Hacc | exact Hbound |].
           repeat constructor; eexists; reflexivity.
        -- split_and!.
           ++ exists probes, [Stat p2; Stat (p2 +:+ "/" +:+ str_of (opt_index opts))].
              split_and!; [rewrite <- app_assoc; reflexivity | exact Hacc | exact Hbound |].
              repeat constructor; eexists; reflexivity.
           ++ intros H. exfalso. exact (H _ eq_refl).
           ++ apply Henc.
      * close Hres. split_and!; [|reflexivity..].
        exists probes, [Stat p2].
        split_and!; [reflexivity | exact Hacc | exact Hbound |].
        repeat constructor. eexists; reflexivity.
    + close Hres. split_and!.
      * exists probes, [Stat p2].
        split_and!; [reflexivity | exact Hacc | exact Hbound |].
        repeat constructor. eexists; reflexivity.
      * intros H. exfalso. exact (H _ eq_refl).
      * apply Henc.
  - close Hres. split_and!; [|reflexivity..].
    exists probes, []. rewrite app_nil_r.
    split_and!; [reflexivity | exact Hacc | exact Hbound | constructor].
  - close Hres. split_and!; [|reflexivity..].
    exists probes, []. rewrite app_nil_r.
    split_and!; [reflexivity | exact Hacc | exact Hbound | constructor].
Qed.

Lemma identity_only_witness :
  (exists cands stats,
     snd (resolve Demo.world Demo.plain "/app.js" Demo.site) = cands ++ stats
     /\ Forall is_access cands
     /\ length cands <= length (default [] (opt_extensions Demo.site))
     /\ Forall is_stat stats)
  /\ ((forall fp, fst (fst (resolve Demo.world Demo.plain "/app.js" Demo.site))
                  <> Resolved fp) ->
      snd (fst (resolve Demo.world Demo.plain "/app.js" Demo.site)) = Demo.plain)
  /\ (hook_keeps "content-encoding" (opt_setHeaders Demo.site) ->
      headers (snd (fst (resolve Demo.world Demo.plain "/app.js" Demo.site)))
        !! "content-encoding" = headers Demo.plain !! "content-encoding").
Proof.
  apply (identity_only Demo.world Demo.plain "/app.js" Demo.site).
  - vm_compute. reflexivity.
  - right. discriminate.
  - right. discriminate.
Defined.
